(** * HD44780U character LCD device of MSIM ([src/device/dlcd.c])

    A shallow embedding of the LCD controller: the register pair, the
    enable falling-edge trigger, the command decoder, the cursor and
    DDRAM addressing arithmetic and the character buffer, followed by the
    properties of the controller that the device description states. *)

From Stdlib Require Import ZArith Lia Bool List.
From stdpp Require Import base list.

Local Open Scope Z_scope.

(** ** C integer types *)

Module C.

(** [(uint8_t) z]. *)
Definition uint8 (z : Z) : Z := z mod 2 ^ 8.

(** [(uint) z], a 32-bit unsigned value. *)
Definition uint32 (z : Z) : Z := z mod 2 ^ 32.

(** [(uint64_t) z]. *)
Definition uint64 (z : Z) : Z := z mod 2 ^ 64.

(** The result of an [int] operation whose mathematical value is [z]:
    two's complement wrap-around into [-2^31, 2^31). *)
Definition int32 (z : Z) : Z := (z + 2 ^ 31) mod 2 ^ 32 - 2 ^ 31.

(** [a % b] on [int]: the remainder of the division truncated towards
    zero (for [b = 0] the C program has no defined result; [Z.rem]
    returns [a]). *)
Definition rem (a b : Z) : Z := Z.rem a b.

Definition in_int32 (z : Z) : Prop := - 2 ^ 31 <= z < 2 ^ 31.

End C.

(** ** Constants *)

Definition REGISTER_DATA : Z := 0.
Definition REGISTER_CONTROL : Z := 1.
Definition REGISTER_LIMIT : Z := 4.

Definition LCD_MAX_ROWS : Z := 4.
Definition LCD_MAX_COLS : Z := 40.

Definition LCD_CMD_CLEAR : Z := 0x01.
Definition LCD_CMD_HOME : Z := 0x02.

Definition LCD_SET_CURSOR_MASK : Z := 0x7F.
Definition LCD_SET_CURSOR_CMD : Z := 0x80.

Definition LCD_CMD_ENTRY_MODE_BASE : Z := 0x04.
Definition LCD_CMD_DISPLAY_CONTROL_BASE : Z := 0x08.
Definition LCD_CMD_FUNCTION_SET_BASE : Z := 0x20.
Definition LCD_CMD_SHIFT_BASE : Z := 0x10.

(** Row address map of the HD44780. *)
Definition row_addr_map : list Z := [0x00; 0x40; 0x14; 0x54].

(** ** Data model *)

(** [lcd_reg_t]: the named bit fields of the register word.  The padding
    bits of the union carry no information the device reads. *)
Record lcd_reg_t : Type := mk_reg {
  reg_rs : bool;    (* parts.rs, register select *)
  reg_rw : bool;    (* parts.rw, read/write *)
  reg_e : bool;     (* parts.e, enable *)
  reg_data : Z      (* parts.data, data/command register *)
}.

(** [lcd_reg_t value = { .value = val }]: the bit fields read back from a
    raw 32-bit word, fields allocated from the least significant bit
    ([rs] bit 0, [rw] bit 1, [e] bit 2, five bits unused, [data] bits
    8 to 15). *)
Definition reg_of_value (val : Z) : lcd_reg_t :=
  {| reg_rs := Z.testbit val 0;
     reg_rw := Z.testbit val 1;
     reg_e := Z.testbit val 2;
     reg_data := Z.land (Z.shiftr val 8) 0xFF |}.

(** [lcd_data_t]. *)
Record lcd_data_t : Type := mk_lcd {
  rows : Z;
  cols : Z;
  current_row : Z;
  current_col : Z;
  reg : lcd_reg_t;
  reg_prev : lcd_reg_t;
  buffer : list Z;
  addr : Z;
  display_on : bool;
  increment_mode : bool;
  display_shift_offset : Z;
  multi_line_mode : bool
}.

(** Field assignments [lcd->f = v]. *)

Definition set_current_row (v : Z) (d : lcd_data_t) : lcd_data_t :=
  mk_lcd (rows d) (cols d) v (current_col d) (reg d) (reg_prev d)
    (buffer d) (addr d) (display_on d) (increment_mode d)
    (display_shift_offset d) (multi_line_mode d).

Definition set_current_col (v : Z) (d : lcd_data_t) : lcd_data_t :=
  mk_lcd (rows d) (cols d) (current_row d) v (reg d) (reg_prev d)
    (buffer d) (addr d) (display_on d) (increment_mode d)
    (display_shift_offset d) (multi_line_mode d).

Definition set_reg (v : lcd_reg_t) (d : lcd_data_t) : lcd_data_t :=
  mk_lcd (rows d) (cols d) (current_row d) (current_col d) v (reg_prev d)
    (buffer d) (addr d) (display_on d) (increment_mode d)
    (display_shift_offset d) (multi_line_mode d).

Definition set_reg_prev (v : lcd_reg_t) (d : lcd_data_t) : lcd_data_t :=
  mk_lcd (rows d) (cols d) (current_row d) (current_col d) (reg d) v
    (buffer d) (addr d) (display_on d) (increment_mode d)
    (display_shift_offset d) (multi_line_mode d).

Definition set_buffer (v : list Z) (d : lcd_data_t) : lcd_data_t :=
  mk_lcd (rows d) (cols d) (current_row d) (current_col d) (reg d)
    (reg_prev d) v (addr d) (display_on d) (increment_mode d)
    (display_shift_offset d) (multi_line_mode d).

Definition set_display_on (v : bool) (d : lcd_data_t) : lcd_data_t :=
  mk_lcd (rows d) (cols d) (current_row d) (current_col d) (reg d)
    (reg_prev d) (buffer d) (addr d) v (increment_mode d)
    (display_shift_offset d) (multi_line_mode d).

Definition set_increment_mode (v : bool) (d : lcd_data_t) : lcd_data_t :=
  mk_lcd (rows d) (cols d) (current_row d) (current_col d) (reg d)
    (reg_prev d) (buffer d) (addr d) (display_on d) v
    (display_shift_offset d) (multi_line_mode d).

Definition set_display_shift_offset (v : Z) (d : lcd_data_t) : lcd_data_t :=
  mk_lcd (rows d) (cols d) (current_row d) (current_col d) (reg d)
    (reg_prev d) (buffer d) (addr d) (display_on d) (increment_mode d)
    v (multi_line_mode d).

Definition set_multi_line_mode (v : bool) (d : lcd_data_t) : lcd_data_t :=
  mk_lcd (rows d) (cols d) (current_row d) (current_col d) (reg d)
    (reg_prev d) (buffer d) (addr d) (display_on d) (increment_mode d)
    (display_shift_offset d) v.

(** ** The character buffer *)

(** [memset(buf, c, n)]: the first [n] cells become [c].  Cells past the
    end of the allocation do not exist in the model. *)
Fixpoint memset (buf : list Z) (c : Z) (n : nat) : list Z :=
  match buf, n with
  | _ :: t, S k => c :: memset t c k
  | _, _ => buf
  end.

(** [buf[i] = v].  A store outside the allocation leaves the modelled
    buffer as it is. *)
Definition buf_store (buf : list Z) (i : Z) (v : Z) : list Z :=
  if 0 <=? i then <[Z.to_nat i := v]> buf else buf.

(** [buf[i]], reading 0 outside the allocation. *)
Definition buf_load (buf : list Z) (i : Z) : Z :=
  if 0 <=? i then default 0 (buf !! Z.to_nat i) else 0.

(** ** Construction *)

(** The four [error(...)] exits of [dlcd_init]. *)
Inductive init_error : Type :=
| ColsExceedMaximum
| RowsExceedMaximum
| DataRegisterOutOfRange
| RegistersExceedRange.

Section Init.

(** [phys_range] of the host simulator: whether an address lies in the
    physical address space. *)
Variable phys_range : Z -> bool.

(** [dlcd_init].  [p_cols], [p_rows] and [p_addr] are the values of the
    three numeric tokens as [parm_uint] returns them, in the order the
    function reads them: columns, rows, address.  The allocation does
    not initialise the register pair: [reg0] and [reg_prev0] are whatever
    it holds. *)
Definition dlcd_init (p_cols p_rows p_addr : Z) (reg0 reg_prev0 : lcd_reg_t)
  : init_error + lcd_data_t :=
  let cols := C.uint32 p_cols in
  if cols >? LCD_MAX_COLS then inl ColsExceedMaximum else
  let rows := C.uint32 p_rows in
  if rows >? LCD_MAX_ROWS then inl RowsExceedMaximum else
  let _addr := C.uint64 p_addr in
  if negb (phys_range _addr) then inl DataRegisterOutOfRange else
  if negb (phys_range (C.uint64 (_addr + REGISTER_LIMIT)))
  then inl RegistersExceedRange else
  inr {| rows := rows;
         cols := cols;
         current_row := 0;
         current_col := 0;
         reg := reg0;
         reg_prev := reg_prev0;
         buffer := replicate (Z.to_nat (C.uint32 (rows * cols))) 0;
         addr := _addr;
         display_on := false;
         increment_mode := true;
         display_shift_offset := 0;
         multi_line_mode := false |}.

(** What [dlcd_init] checks. *)
Definition init_ok (p_cols p_rows p_addr : Z) : Prop :=
  C.uint32 p_cols <= LCD_MAX_COLS /\
  C.uint32 p_rows <= LCD_MAX_ROWS /\
  phys_range (C.uint64 p_addr) = true /\
  phys_range (C.uint64 (C.uint64 p_addr + REGISTER_LIMIT)) = true.

End Init.

(** ** Rendering *)

(** The character printed for column [col] of row [row]. *)
Definition lcd_print_cell (data : lcd_data_t) (row col : Z) : Z :=
  let source_col := C.int32 (col + display_shift_offset data) in
  if (source_col >=? 0) && (source_col <? cols data) then
    let c := buf_load (buffer data)
               (C.int32 (C.int32 (row * cols data) + source_col)) in
    if c =? 0 then 32 else c
  else 32.

(** [for (int i = 0; i < n; i++)] as the list of the values of [i]. *)
Definition upto (n : Z) : list Z := map Z.of_nat (seq 0 (Z.to_nat n)).

(** The values of [row] in [for (int row = a; row < n; row++)]. *)
Definition from_upto (a n : Z) : list Z := map (fun i => a + i) (upto (n - a)).

(** [lcd_print]: the text lines printed between the top and the bottom
    border, each without its two border glyphs. *)
Definition lcd_print (data : lcd_data_t) : list (list Z) :=
  let blank := map (fun _ => 32) (upto (cols data)) in
  if negb (display_on data) then
    map (fun _ => blank) (upto (rows data))
  else
    let active_rows := if multi_line_mode data then rows data else 1 in
    map (fun row => map (lcd_print_cell data row) (upto (cols data)))
        (upto active_rows)
    ++ map (fun _ => blank) (from_upto active_rows (rows data)).

(** ** Cursor and addressing *)

(** The loop of [ddram_addr_to_position]: [n] iterations left, starting
    at row index [i].  The result is the pair written to [*row], [*col],
    or [None] for [return false].  The table has four entries; an index
    past them, which needs more rows than [dlcd_init] accepts, ends the
    scan. *)
Fixpoint ddram_scan (cols addr : Z) (i n : nat) : option (Z * Z) :=
  match n with
  | O => None
  | S n' =>
      match row_addr_map !! i with
      | Some base =>
          if (addr >=? base) && (addr <? base + LCD_MAX_COLS) then
            let col := addr - base in
            Some (Z.of_nat i,
                  if col >=? cols then C.int32 (cols - 1) else col)
          else ddram_scan cols addr (S i) n'
      | None => None
      end
  end.

(** [ddram_addr_to_position].  The parameter [addr] is a [uint8_t]: the
    argument is converted on entry. *)
Definition ddram_addr_to_position (data : lcd_data_t) (addr : Z)
  : option (Z * Z) :=
  let addr := C.uint8 addr in
  ddram_scan (cols data) addr 0 (Z.to_nat (rows data)).

Definition lcd_set_cursor (data : lcd_data_t) (addr : Z) : lcd_data_t :=
  match ddram_addr_to_position data addr with
  | Some (row, col) => set_current_col col (set_current_row row data)
  | None => data
  end.

Definition lcd_advance_cursor (lcd : lcd_data_t) : lcd_data_t :=
  if increment_mode lcd then
    let lcd := set_current_col (C.int32 (current_col lcd + 1)) lcd in
    if negb (multi_line_mode lcd) then
      if current_col lcd >=? cols lcd then set_current_col 0 lcd else lcd
    else
      if current_col lcd >=? cols lcd then
        let lcd := set_current_col 0 lcd in
        set_current_row
          (C.rem (C.int32 (current_row lcd + 1)) (rows lcd)) lcd
      else lcd
  else
    let lcd := set_current_col (C.int32 (current_col lcd - 1)) lcd in
    if current_col lcd <? 0 then
      if negb (multi_line_mode lcd) then
        set_current_col (C.int32 (cols lcd - 1)) lcd
      else
        let lcd := set_current_col (C.int32 (cols lcd - 1)) lcd in
        set_current_row
          (C.rem (C.int32 (C.int32 (current_row lcd - 1) + rows lcd))
                 (rows lcd)) lcd
    else lcd.

(** ** Command handlers *)

Definition lcd_handle_clear_command (lcd : lcd_data_t) : lcd_data_t :=
  let lcd :=
    set_buffer
      (memset (buffer lcd) 0 (Z.to_nat (C.int32 (rows lcd * cols lcd)))) lcd in
  let lcd := set_current_row 0 lcd in
  let lcd := set_current_col 0 lcd in
  set_display_shift_offset 0 lcd.

Definition lcd_handle_home_command (lcd : lcd_data_t) : lcd_data_t :=
  let lcd := set_current_row 0 lcd in
  let lcd := set_current_col 0 lcd in
  set_display_shift_offset 0 lcd.

Definition lcd_handle_entry_mode_command (lcd : lcd_data_t) (cmd : Z)
  : lcd_data_t :=
  set_increment_mode (negb (Z.land cmd 0x02 =? 0)) lcd.

Definition lcd_handle_display_control_command (lcd : lcd_data_t) (cmd : Z)
  : lcd_data_t :=
  set_display_on (negb (Z.land cmd 0x04 =? 0)) lcd.

Definition lcd_handle_function_set_command (lcd : lcd_data_t) (cmd : Z)
  : lcd_data_t :=
  set_multi_line_mode (negb (Z.land cmd 0x08 =? 0)) lcd.

Definition lcd_handle_shift_command (lcd : lcd_data_t) (cmd : Z)
  : lcd_data_t :=
  let shift_display := negb (Z.land cmd 0x08 =? 0) in
  let shift_right := negb (Z.land cmd 0x04 =? 0) in
  if shift_display then
    let lcd :=
      if shift_right then
        set_display_shift_offset (C.int32 (display_shift_offset lcd + 1)) lcd
      else
        set_display_shift_offset (C.int32 (display_shift_offset lcd - 1)) lcd
    in
    let lcd :=
      if display_shift_offset lcd <? C.int32 (- cols lcd) then
        set_display_shift_offset (C.int32 (- cols lcd)) lcd
      else lcd in
    if display_shift_offset lcd >? cols lcd then
      set_display_shift_offset (cols lcd) lcd
    else lcd
  else
    if shift_right then
      let lcd := set_current_col (C.int32 (current_col lcd + 1)) lcd in
      if current_col lcd >=? cols lcd then
        let lcd := set_current_col 0 lcd in
        set_current_row
          (C.rem (C.int32 (current_row lcd + 1)) (rows lcd)) lcd
      else lcd
    else
      let lcd := set_current_col (C.int32 (current_col lcd - 1)) lcd in
      if current_col lcd <? 0 then
        let lcd := set_current_col (C.int32 (cols lcd - 1)) lcd in
        set_current_row
          (C.rem (C.int32 (C.int32 (current_row lcd - 1) + rows lcd))
                 (rows lcd)) lcd
      else lcd.

Definition lcd_handle_set_cursor_command (lcd : lcd_data_t) (cmd : Z)
  : lcd_data_t :=
  let addr := Z.land cmd LCD_SET_CURSOR_MASK in
  if negb (multi_line_mode lcd) then
    match ddram_addr_to_position lcd addr with
    | Some (_, col) => set_current_col col (set_current_row 0 lcd)
    | None => lcd
    end
  else lcd_set_cursor lcd addr.

(** [lcd_handle_command_write]: the new state and [display_updated]. *)
Definition lcd_handle_command_write (lcd : lcd_data_t) : lcd_data_t * bool :=
  if reg_rw (reg lcd) then (lcd, false) else
  let cmd := reg_data (reg lcd) in
  if cmd =? LCD_CMD_CLEAR then
    (lcd_handle_clear_command lcd, true)
  else if cmd =? LCD_CMD_HOME then
    (lcd_handle_home_command lcd, false)
  else if Z.land cmd 0xFC =? LCD_CMD_ENTRY_MODE_BASE then
    (lcd_handle_entry_mode_command lcd cmd, false)
  else if Z.land cmd 0xF8 =? LCD_CMD_DISPLAY_CONTROL_BASE then
    (lcd_handle_display_control_command lcd cmd, true)
  else if Z.land cmd 0xE0 =? LCD_CMD_FUNCTION_SET_BASE then
    (lcd_handle_function_set_command lcd cmd, true)
  else if Z.land cmd 0xFC =? LCD_CMD_SHIFT_BASE then
    (lcd_handle_shift_command lcd cmd, true)
  else if negb (Z.land cmd LCD_SET_CURSOR_CMD =? 0) then
    (lcd_handle_set_cursor_command lcd cmd, false)
  else (lcd, false).

(** [lcd_handle_data_write]: the new state and whether the display
    changed. *)
Definition lcd_handle_data_write (lcd : lcd_data_t) : lcd_data_t * bool :=
  if reg_rw (reg lcd) then (lcd, false) else
  if current_col lcd <? cols lcd then
    let lcd :=
      set_buffer
        (buf_store (buffer lcd)
           (C.int32 (C.int32 (current_row lcd * cols lcd) + current_col lcd))
           (reg_data (reg lcd))) lcd in
    (lcd_advance_cursor lcd, true)
  else (lcd, false).

(** ** Register interface *)

(** [lcd_execute_command]: the new state and the frames printed. *)
Definition lcd_execute_command (lcd : lcd_data_t)
  : lcd_data_t * list (list (list Z)) :=
  if reg_e (reg_prev lcd) && negb (reg_e (reg lcd)) then
    let '(lcd, display_updated) :=
      if reg_rs (reg lcd) then lcd_handle_data_write lcd
      else lcd_handle_command_write lcd in
    if display_updated then (lcd, [lcd_print lcd]) else (lcd, [])
  else (lcd, []).

(** [lcd_write32]: a 32-bit write of [val] at bus address [a]. *)
Definition lcd_write32 (data : lcd_data_t) (a val : Z)
  : lcd_data_t * list (list (list Z)) :=
  let off := C.uint64 (a - addr data) in
  if off =? REGISTER_DATA then
    let r := reg data in
    (set_reg (mk_reg (reg_rs r) (reg_rw r) (reg_e r) (C.uint8 val)) data, [])
  else if off =? REGISTER_CONTROL then
    let data := set_reg_prev (reg data) data in
    let value := reg_of_value val in
    let r := reg data in
    let data :=
      set_reg (mk_reg (reg_rs value) (reg_rw value) (reg_e value) (reg_data r))
        data in
    lcd_execute_command data
  else (data, []).

(** ** Sequences of register writes *)

(** A sequence of bus writes [(address, value)], oldest first: the final
    state and everything printed. *)
Fixpoint run (st : lcd_data_t) (ws : list (Z * Z))
  : lcd_data_t * list (list (list Z)) :=
  match ws with
  | [] => (st, [])
  | (a, v) :: ws' =>
      let '(st1, out1) := lcd_write32 st a v in
      let '(st2, out2) := run st1 ws' in
      (st2, out1 ++ out2)
  end.

(** The states after each write of the sequence. *)
Fixpoint run_states (st : lcd_data_t) (ws : list (Z * Z)) : list lcd_data_t :=
  match ws with
  | [] => []
  | (a, v) :: ws' =>
      let st1 := fst (lcd_write32 st a v) in
      st1 :: run_states st1 ws'
  end.

(** How a driver issues one instruction or one data byte: latch the byte
    in the data register, raise enable with the wanted register-select
    and read/write bits, then drop enable. *)
Definition control_word (rs rw e : bool) : Z :=
  (if rs then 1 else 0) + (if rw then 2 else 0) + (if e then 4 else 0).

Definition pulse (st : lcd_data_t) (rs rw : bool) (byte : Z) : list (Z * Z) :=
  [ (C.uint64 (addr st + REGISTER_DATA), byte);
    (C.uint64 (addr st + REGISTER_CONTROL), control_word rs rw true);
    (C.uint64 (addr st + REGISTER_CONTROL), control_word rs rw false) ].

Definition issue_command (st : lcd_data_t) (cmd : Z) :=
  run st (pulse st false false cmd).

Definition issue_data (st : lcd_data_t) (byte : Z) :=
  run st (pulse st true false byte).

(** [n] repetitions of the same instruction. *)
Fixpoint repeat_command (n : nat) (st : lcd_data_t) (cmd : Z) : lcd_data_t :=
  match n with
  | O => st
  | S k => repeat_command k (fst (issue_command st cmd)) cmd
  end.

(** ** Derived notions used in the statements *)

(** The geometry of a configured display. *)
Definition lcd_geometry (st : lcd_data_t) : Prop :=
  1 <= rows st <= LCD_MAX_ROWS /\ 1 <= cols st <= LCD_MAX_COLS.

(** The cursor denotes a cell of the buffer and the shift offset is within
    one display width. *)
Definition lcd_inv (st : lcd_data_t) : Prop :=
  (0 <= current_row st < rows st) /\
  (0 <= current_col st < cols st) /\
  (- cols st <= display_shift_offset st <= cols st).

Definition lcd_ok (st : lcd_data_t) : Prop := lcd_geometry st /\ lcd_inv st.

(** The buffer holds [rows * cols] cells. *)
Definition buffer_sized (st : lcd_data_t) : Prop :=
  length (buffer st) = Z.to_nat (rows st * cols st).

(** Everything but the two register snapshots. *)
Definition controller_unchanged (st st' : lcd_data_t) : Prop :=
  rows st' = rows st /\ cols st' = cols st /\
  current_row st' = current_row st /\ current_col st' = current_col st /\
  buffer st' = buffer st /\ addr st' = addr st /\
  display_on st' = display_on st /\
  increment_mode st' = increment_mode st /\
  display_shift_offset st' = display_shift_offset st /\
  multi_line_mode st' = multi_line_mode st.

(** The state the handler sees when the enable pulse of [pulse] ends:
    the byte is latched, enable has just dropped. *)
Definition latched (st : lcd_data_t) (rs rw : bool) (byte : Z) : lcd_data_t :=
  set_reg (mk_reg rs rw false (C.uint8 byte))
    (set_reg_prev (mk_reg rs rw true (C.uint8 byte)) st).

(** The decoder's tests, in order, as one classification of the byte. *)
Inductive instruction : Type :=
| IClear | IHome | IEntryMode | IDisplayControl | IFunctionSet | IShift
| ISetCursor | IIgnored.

Definition decode (cmd : Z) : instruction :=
  if cmd =? LCD_CMD_CLEAR then IClear
  else if cmd =? LCD_CMD_HOME then IHome
  else if Z.land cmd 0xFC =? LCD_CMD_ENTRY_MODE_BASE then IEntryMode
  else if Z.land cmd 0xF8 =? LCD_CMD_DISPLAY_CONTROL_BASE then IDisplayControl
  else if Z.land cmd 0xE0 =? LCD_CMD_FUNCTION_SET_BASE then IFunctionSet
  else if Z.land cmd 0xFC =? LCD_CMD_SHIFT_BASE then IShift
  else if negb (Z.land cmd LCD_SET_CURSOR_CMD =? 0) then ISetCursor
  else IIgnored.

Definition instruction_eqb (i j : instruction) : bool :=
  match i, j with
  | IClear, IClear | IHome, IHome | IEntryMode, IEntryMode
  | IDisplayControl, IDisplayControl | IFunctionSet, IFunctionSet
  | IShift, IShift | ISetCursor, ISetCursor | IIgnored, IIgnored => true
  | _, _ => false
  end.

(** The geometry, the mapping and the size of the buffer, which no write
    changes. *)
Definition same_shape (st st' : lcd_data_t) : Prop :=
  rows st' = rows st /\ cols st' = cols st /\ addr st' = addr st /\
  length (buffer st') = length (buffer st).

(** A buffer of [rows * cols] cells for a geometry [dlcd_init] accepts. *)
Definition lcd_sized (st : lcd_data_t) : Prop :=
  0 <= rows st <= LCD_MAX_ROWS /\ 0 <= cols st <= LCD_MAX_COLS /\
  buffer_sized st.

(** ** A sample device *)

(** A host with 36-bit physical addresses. *)
Definition phys_range_36 (a : Z) : bool := a <? 2 ^ 36.

Definition reg_zero : lcd_reg_t := mk_reg false false false 0.

(** The 16x2 display mapped at [0x1000], as [dlcd_init] builds it. *)
Definition lcd_16x2 : lcd_data_t :=
  mk_lcd 2 16 0 0 reg_zero reg_zero (replicate 32 0) 0x1000
    false true 0 false.

(** [lcd_16x2] after: function set with two lines (0x28), cursor to the
    start of the second line (0xC0), function set back to one line
    (0x20). *)
Definition lcd_16x2_second_line : lcd_data_t :=
  let st := fst (issue_command lcd_16x2 0x28) in
  let st := fst (issue_command st 0xC0) in
  fst (issue_command st 0x20).

(** A driver session on [lcd_16x2]: function set with two lines (0x38),
    display on (0x0C), then the character 'A'. *)
Definition sample_writes : list (Z * Z) :=
  pulse lcd_16x2 false false 0x38 ++
  pulse lcd_16x2 false false 0x0C ++
  pulse lcd_16x2 true false 65.

(** ** Introspection and longer sessions *)

(** [dlcd_info]: the two addresses it prints, the data register and the
    control register, and its return value. *)
Definition dlcd_info (data : lcd_data_t) : list Z * bool :=
  ([addr data; C.uint64 (addr data + 1)], true).

(** The data bytes [bs] sent one after the other, each with its own
    enable pulse. *)
Fixpoint issue_bytes (st : lcd_data_t) (bs : list Z) : lcd_data_t :=
  match bs with
  | [] => st
  | b :: bs' => issue_bytes (fst (issue_data st b)) bs'
  end.

(** Everything but the cursor and the two register snapshots. *)
Definition same_but_cursor (st st' : lcd_data_t) : Prop :=
  rows st' = rows st /\ cols st' = cols st /\
  buffer st' = buffer st /\ addr st' = addr st /\
  display_on st' = display_on st /\
  increment_mode st' = increment_mode st /\
  display_shift_offset st' = display_shift_offset st /\
  multi_line_mode st' = multi_line_mode st.

(** The cell of the buffer the cursor denotes. *)
Definition cursor_index (st : lcd_data_t) : nat :=
  Z.to_nat (current_row st * cols st + current_col st).

(** The 20x4 display mapped at [0x2000]. *)
Definition lcd_20x4 : lcd_data_t :=
  mk_lcd 4 20 0 0 reg_zero reg_zero (replicate 80 0) 0x2000
    false true 0 false.

(** Everything but the three mode flags and the two register
    snapshots. *)
Definition same_but_modes (st st' : lcd_data_t) : Prop :=
  rows st' = rows st /\ cols st' = cols st /\
  current_row st' = current_row st /\ current_col st' = current_col st /\
  buffer st' = buffer st /\ addr st' = addr st /\
  display_shift_offset st' = display_shift_offset st.

(** ** The text [lcd_print] writes *)

(** The box-drawing glyphs of the frame, as the UTF-8 bytes of the string
    literals in the source. *)
Definition glyph_top_left : list Z := [0xE2; 0x94; 0x8C].
Definition glyph_top_right : list Z := [0xE2; 0x94; 0x90].
Definition glyph_bottom_left : list Z := [0xE2; 0x94; 0x94].
Definition glyph_bottom_right : list Z := [0xE2; 0x94; 0x98].
Definition glyph_horizontal : list Z := [0xE2; 0x94; 0x80].
Definition glyph_vertical : list Z := [0xE2; 0x94; 0x82].

(** A border line: a corner, one horizontal glyph per column, a corner
    and a newline. *)
Definition lcd_print_border (left right : list Z) (cols : Z) : list Z :=
  left ++ concat (map (fun _ => glyph_horizontal) (upto cols))
       ++ right ++ [10].

(** Everything [lcd_print] writes to the standard output, byte by byte:
    the top border, each line of cells of [lcd_print] above between two
    vertical glyphs and followed by a newline, and the bottom border. *)
Definition lcd_print_output (data : lcd_data_t) : list Z :=
  lcd_print_border glyph_top_left glyph_top_right (cols data)
  ++ concat (map (fun line => glyph_vertical ++ line ++ glyph_vertical ++ [10])
                 (lcd_print data))
  ++ lcd_print_border glyph_bottom_left glyph_bottom_right (cols data).

(** * Properties *)

(** ** Integer conversions *)

Lemma int32_small z : C.in_int32 z -> C.int32 z = z.
Proof.
  unfold C.in_int32, C.int32. intros Hz.
  rewrite Z.mod_small by lia. lia.
Qed.

Lemma uint32_small z : 0 <= z < 2 ^ 32 -> C.uint32 z = z.
Proof. intros Hz. unfold C.uint32. now apply Z.mod_small. Qed.

Lemma uint32_range z : 0 <= C.uint32 z < 2 ^ 32.
Proof. unfold C.uint32. apply Z.mod_pos_bound. lia. Qed.

(** The register at offset [k] of the block is decoded as offset [k],
    wherever the block is mapped. *)
Lemma register_offset base k :
  0 <= k < 2 ^ 64 -> C.uint64 (C.uint64 (base + k) - base) = k.
Proof.
  intros Hk. unfold C.uint64.
  rewrite Zminus_mod_idemp_l.
  replace (base + k - base) with k by lia.
  now apply Z.mod_small.
Qed.

(** Rewrites [C.int32 z] to [z] when the bounds in the context make [z]
    small enough for [lia] or [nia] to see it. *)
Ltac int32_simpl :=
  repeat match goal with
  | |- context [C.int32 ?z] =>
      rewrite (int32_small z) by (unfold C.in_int32; first [lia | nia])
  | H : context [C.int32 ?z] |- _ =>
      rewrite (int32_small z) in H by (unfold C.in_int32; first [lia | nia])
  end.

(** ** The buffer *)

Lemma memset_length buf c n : length (memset buf c n) = length buf.
Proof.
  revert n. induction buf as [|x buf IH]; intros [|n]; simpl; auto.
Qed.

Lemma memset_all buf c n :
  (length buf <= n)%nat -> memset buf c n = replicate (length buf) c.
Proof.
  revert n. induction buf as [|x buf IH]; intros [|n] Hn; simpl in *;
    try reflexivity; try lia.
  f_equal. apply IH. lia.
Qed.

Lemma Forall_replicate_eq (c : Z) n : Forall (eq c) (replicate n c).
Proof. induction n; simpl; constructor; auto. Qed.

Lemma buf_store_length buf i v : length (buf_store buf i v) = length buf.
Proof.
  unfold buf_store. destruct (0 <=? i); [apply length_insert | reflexivity].
Qed.

(** ** Construction *)

Section InitFacts.

Variable phys_range : Z -> bool.


Lemma dlcd_init_inr pc pr pa r0 r1 st :
  dlcd_init phys_range pc pr pa r0 r1 = inr st ->
  init_ok phys_range pc pr pa /\
  st = mk_lcd (C.uint32 pr) (C.uint32 pc) 0 0 r0 r1
         (replicate (Z.to_nat (C.uint32 pr * C.uint32 pc)) 0)
         (C.uint64 pa) false true 0 false.
Proof.
  unfold dlcd_init, init_ok.
  destruct (C.uint32 pc >? LCD_MAX_COLS) eqn:Hc; [discriminate|].
  destruct (C.uint32 pr >? LCD_MAX_ROWS) eqn:Hr; [discriminate|].
  destruct (phys_range (C.uint64 pa)) eqn:Ha; [|discriminate].
  destruct (phys_range (C.uint64 (C.uint64 pa + REGISTER_LIMIT))) eqn:Hl;
    [|discriminate].
  simpl. intros [= <-].
  pose proof (uint32_range pc). pose proof (uint32_range pr).
  unfold LCD_MAX_COLS, LCD_MAX_ROWS in *.
  rewrite (uint32_small (C.uint32 pr * C.uint32 pc)) by nia.
  repeat split; try lia.
Qed.

Lemma dlcd_init_ok pc pr pa r0 r1 :
  init_ok phys_range pc pr pa ->
  exists st, dlcd_init phys_range pc pr pa r0 r1 = inr st.
Proof.
  unfold init_ok, dlcd_init. intros (Hc & Hr & Ha & Hl).
  destruct (C.uint32 pc >? LCD_MAX_COLS) eqn:Hc'; [lia|].
  destruct (C.uint32 pr >? LCD_MAX_ROWS) eqn:Hr'; [lia|].
  rewrite Ha, Hl. simpl. eauto.
Qed.

End InitFacts.

(** ** The state invariant *)


Ltac unfold_ok :=
  unfold lcd_ok, lcd_geometry, lcd_inv, LCD_MAX_ROWS, LCD_MAX_COLS in *;
  simpl in *.

(** Case analysis on the integer comparisons of the goal. *)
Ltac zcases :=
  repeat match goal with
  | |- context [?a >=? ?b] => rewrite (Z.geb_leb a b)
  | |- context [?a >? ?b] => rewrite (Z.gtb_ltb a b)
  | |- context [?a <? ?b] => destruct (Z.ltb_spec a b); simpl in *
  | |- context [?a <=? ?b] => destruct (Z.leb_spec a b); simpl in *
  | |- context [?a =? ?b] => destruct (Z.eqb_spec a b); simpl in *
  end.

Lemma rem_range a b : 0 <= a -> 0 < b -> 0 <= C.rem a b < b.
Proof. intros Ha Hb. unfold C.rem. now apply Z.rem_bound_pos. Qed.

Lemma rem_is_mod a b : 0 <= a -> 0 < b -> C.rem a b = a mod b.
Proof. intros Ha Hb. unfold C.rem. apply Z.rem_mod_nonneg; lia. Qed.

(** *** Address translation *)

Lemma ddram_scan_range cols a i n r c :
  1 <= cols <= LCD_MAX_COLS ->
  ddram_scan cols a i n = Some (r, c) ->
  (Z.of_nat i <= r < Z.of_nat (i + n)) /\ (0 <= c < cols).
Proof.
  intros Hc. revert i. induction n as [|n IH]; intros i; simpl.
  - discriminate.
  - destruct (row_addr_map !! i) as [base|]; [|discriminate].
    destruct ((a >=? base) && (a <? base + LCD_MAX_COLS)) eqn:Hin.
    + apply andb_true_iff in Hin as [H1 H2].
      rewrite Z.geb_leb in H1. apply Z.leb_le in H1. apply Z.ltb_lt in H2.
      intros [= <- <-]. unfold LCD_MAX_COLS in *. split; [lia|].
      zcases; int32_simpl; lia.
    + intros Hs. apply IH in Hs. lia.
Qed.

Lemma ddram_addr_to_position_byte st a :
  0 <= a < 256 ->
  ddram_addr_to_position st a
  = ddram_scan (cols st) a 0 (Z.to_nat (rows st)).
Proof.
  intros Ha. unfold ddram_addr_to_position, C.uint8.
  now rewrite Z.mod_small by exact Ha.
Qed.

Lemma ddram_addr_to_position_range st a r c :
  lcd_geometry st ->
  ddram_addr_to_position st a = Some (r, c) ->
  (0 <= r < rows st) /\ (0 <= c < cols st).
Proof.
  intros [Hr Hc] Hs. unfold ddram_addr_to_position in Hs.
  apply ddram_scan_range in Hs; [|exact Hc].
  rewrite Nat.add_0_l, Z2Nat.id in Hs by lia. simpl in Hs. lia.
Qed.

(** *** The handlers keep the invariant *)

Lemma lcd_advance_cursor_ok st : lcd_ok st -> lcd_ok (lcd_advance_cursor st).
Proof.
  destruct st as [rs cs r c rg rp buf a don inc off ml].
  unfold lcd_advance_cursor. intros Hok. unfold_ok.
  destruct inc, ml; simpl; int32_simpl; zcases; simpl; int32_simpl;
    try (pose proof (rem_range (r + 1) rs));
    try (pose proof (rem_range (r - 1 + rs) rs)); lia.
Qed.

Lemma lcd_handle_shift_command_ok st cmd :
  lcd_ok st -> lcd_ok (lcd_handle_shift_command st cmd).
Proof.
  destruct st as [rs cs r c rg rp buf a don inc off ml].
  unfold lcd_handle_shift_command. intros Hok. unfold_ok.
  destruct (negb (Z.land cmd 8 =? 0)), (negb (Z.land cmd 4 =? 0));
    simpl; int32_simpl; zcases; simpl; int32_simpl; zcases;
    try (pose proof (rem_range (r + 1) rs));
    try (pose proof (rem_range (r - 1 + rs) rs)); lia.
Qed.

Lemma lcd_handle_set_cursor_command_ok st cmd :
  lcd_ok st -> lcd_ok (lcd_handle_set_cursor_command st cmd).
Proof.
  intros Hok. unfold lcd_handle_set_cursor_command, lcd_set_cursor.
  destruct (ddram_addr_to_position st _) as [[r c]|] eqn:Hpos.
  - apply ddram_addr_to_position_range in Hpos; [|apply Hok].
    destruct st as [rs cs r0 c0 rg rp buf a don inc off ml].
    destruct ml; unfold_ok; lia.
  - now destruct (negb (multi_line_mode st)).
Qed.

Lemma lcd_handle_command_write_ok st :
  lcd_ok st -> lcd_ok (fst (lcd_handle_command_write st)).
Proof.
  intros Hok. unfold lcd_handle_command_write.
  destruct (reg_rw (reg st)); [exact Hok|].
  repeat match goal with
  | |- lcd_ok (fst (if ?b then _ else _)) => destruct b; simpl fst
  end; try exact Hok;
    try (apply lcd_handle_shift_command_ok; exact Hok);
    try (apply lcd_handle_set_cursor_command_ok; exact Hok);
    destruct st as [rs cs r c rg rp buf a don inc off ml];
    unfold_ok; lia.
Qed.

Lemma lcd_handle_data_write_ok st :
  lcd_ok st -> lcd_ok (fst (lcd_handle_data_write st)).
Proof.
  intros Hok. unfold lcd_handle_data_write.
  destruct (reg_rw (reg st)); [exact Hok|].
  destruct (current_col st <? cols st); [|exact Hok].
  simpl fst. apply lcd_advance_cursor_ok.
  destruct st; exact Hok.
Qed.

Lemma lcd_execute_command_ok st :
  lcd_ok st -> lcd_ok (fst (lcd_execute_command st)).
Proof.
  intros Hok. unfold lcd_execute_command.
  destruct (reg_e (reg_prev st) && negb (reg_e (reg st))); [|exact Hok].
  destruct (reg_rs (reg st)).
  - pose proof (lcd_handle_data_write_ok st Hok) as H.
    destruct (lcd_handle_data_write st) as [st' []]; exact H.
  - pose proof (lcd_handle_command_write_ok st Hok) as H.
    destruct (lcd_handle_command_write st) as [st' []]; exact H.
Qed.

Lemma lcd_write32_ok st a v : lcd_ok st -> lcd_ok (fst (lcd_write32 st a v)).
Proof.
  intros Hok. unfold lcd_write32.
  destruct (_ =? REGISTER_DATA); [destruct st; exact Hok|].
  destruct (_ =? REGISTER_CONTROL); [|exact Hok].
  apply lcd_execute_command_ok. destruct st; exact Hok.
Qed.

Lemma run_states_ok st ws : lcd_ok st -> Forall lcd_ok (run_states st ws).
Proof.
  revert st. induction ws as [|[a v] ws IH]; intros st Hok; simpl.
  - constructor.
  - pose proof (lcd_write32_ok st a v Hok). constructor; auto.
Qed.

Lemma last_nonempty_default {A} (x : A) l d d' :
  List.last (x :: l) d = List.last (x :: l) d'.
Proof.
  revert x. induction l as [|y l IH]; intros x; [reflexivity|].
  change (List.last (y :: l) d = List.last (y :: l) d'). apply IH.
Qed.

(** The state [run] ends in is the last of the states [run_states]
    lists. *)
Lemma run_fst_last st ws :
  fst (run st ws) = List.last (run_states st ws) st.
Proof.
  revert st. induction ws as [|[a v] ws IH]; intros st; [reflexivity|].
  simpl. specialize (IH (fst (lcd_write32 st a v))).
  destruct (lcd_write32 st a v) as [st1 o1]. simpl in *.
  destruct (run st1 ws) as [st2 o2]. simpl in *. rewrite IH.
  destruct (run_states st1 ws) as [|x l]; [reflexivity|].
  apply last_nonempty_default.
Qed.

Lemma run_ok st ws : lcd_ok st -> lcd_ok (fst (run st ws)).
Proof.
  revert st. induction ws as [|[a v] ws IH]; intros st Hok; simpl; [exact Hok|].
  pose proof (lcd_write32_ok st a v Hok) as H1.
  destruct (lcd_write32 st a v) as [st1 o1]. simpl in H1.
  specialize (IH st1 H1). destruct (run st1 ws) as [st2 o2]. exact IH.
Qed.

(** ** The register interface *)

Lemma lcd_write32_data st a v :
  C.uint64 (a - addr st) = REGISTER_DATA ->
  lcd_write32 st a v =
  (set_reg (mk_reg (reg_rs (reg st)) (reg_rw (reg st)) (reg_e (reg st))
              (C.uint8 v)) st, []).
Proof. intros Ha. unfold lcd_write32. rewrite Ha. reflexivity. Qed.

Lemma lcd_write32_control st a v :
  C.uint64 (a - addr st) = REGISTER_CONTROL ->
  lcd_write32 st a v =
  lcd_execute_command
    (set_reg (mk_reg (Z.testbit v 0) (Z.testbit v 1) (Z.testbit v 2)
                (reg_data (reg st)))
       (set_reg_prev (reg st) st)).
Proof. intros Ha. unfold lcd_write32. rewrite Ha. reflexivity. Qed.

Lemma lcd_write32_other st a v :
  C.uint64 (a - addr st) <> REGISTER_DATA ->
  C.uint64 (a - addr st) <> REGISTER_CONTROL ->
  lcd_write32 st a v = (st, []).
Proof.
  intros H0 H1. unfold lcd_write32.
  destruct (Z.eqb_spec (C.uint64 (a - addr st)) REGISTER_DATA); [contradiction|].
  destruct (Z.eqb_spec (C.uint64 (a - addr st)) REGISTER_CONTROL);
    [contradiction|reflexivity].
Qed.

Lemma control_word_bits rs rw e :
  Z.testbit (control_word rs rw e) 0 = rs /\
  Z.testbit (control_word rs rw e) 1 = rw /\
  Z.testbit (control_word rs rw e) 2 = e.
Proof. destruct rs, rw, e; repeat split; reflexivity. Qed.


(** A pulse fires exactly one execution, on the latched byte. *)
Lemma run_pulse st rs rw byte :
  run st (pulse st rs rw byte) = lcd_execute_command (latched st rs rw byte).
Proof.
  destruct (control_word_bits rs rw true) as (T0 & T1 & T2).
  destruct (control_word_bits rs rw false) as (F0 & F1 & F2).
  destruct st as [rs0 cs r c rg rp buf a don inc off ml].
  unfold pulse, run.
  rewrite lcd_write32_data
    by (simpl; apply register_offset; unfold REGISTER_DATA; lia).
  rewrite lcd_write32_control
    by (simpl; apply register_offset; unfold REGISTER_CONTROL; lia).
  rewrite T0, T1, T2.
  unfold lcd_execute_command at 1. simpl.
  rewrite andb_false_r.
  rewrite lcd_write32_control
    by (simpl; apply register_offset; unfold REGISTER_CONTROL; lia).
  rewrite F0, F1, F2. simpl.
  unfold latched, set_reg, set_reg_prev. simpl.
  destruct (lcd_execute_command _) as [s o].
  now rewrite app_nil_r.
Qed.

Lemma issue_command_eq st cmd :
  issue_command st cmd =
  let '(st', updated) :=
    lcd_handle_command_write (latched st false false cmd) in
  (st', if updated then [lcd_print st'] else []).
Proof.
  unfold issue_command. rewrite run_pulse. unfold lcd_execute_command.
  unfold latched. simpl.
  destruct (lcd_handle_command_write _) as [st' []]; reflexivity.
Qed.

Lemma issue_data_eq st byte :
  issue_data st byte =
  let '(st', updated) :=
    lcd_handle_data_write (latched st true false byte) in
  (st', if updated then [lcd_print st'] else []).
Proof.
  unfold issue_data. rewrite run_pulse. unfold lcd_execute_command.
  unfold latched. simpl.
  destruct (lcd_handle_data_write _) as [st' []]; reflexivity.
Qed.

Lemma latched_unchanged st rs rw byte :
  controller_unchanged st (latched st rs rw byte).
Proof. destruct st. repeat split. Qed.

Lemma latched_ok st rs rw byte : lcd_ok st -> lcd_ok (latched st rs rw byte).
Proof. destruct st. exact id. Qed.

(** ** The command decoder *)

(** A property of bytes that holds of each of the 256 values holds of
    every byte. *)
Lemma byte_cases (P : Z -> bool) :
  forallb P (upto 256) = true -> forall c, 0 <= c < 256 -> P c = true.
Proof.
  intros Hall c Hc. rewrite forallb_forall in Hall. apply Hall.
  unfold upto. apply in_map_iff. exists (Z.to_nat c). split; [lia|].
  apply in_seq. lia.
Qed.

Lemma uint8_byte c : 0 <= c < 256 -> C.uint8 c = c.
Proof. intros Hc. unfold C.uint8. now apply Z.mod_small. Qed.

(** A byte admitted to the shift handler has bits 2 and 3 clear. *)
Lemma shift_group_bits cmd :
  Z.land cmd 0xFC = LCD_CMD_SHIFT_BASE ->
  Z.land cmd 0x08 = 0 /\ Z.land cmd 0x04 = 0.
Proof.
  intros H. split.
  - change 0x08 with (Z.land 0xFC 0x08). rewrite Z.land_assoc, H. reflexivity.
  - change 0x04 with (Z.land 0xFC 0x04). rewrite Z.land_assoc, H. reflexivity.
Qed.


(** [lcd_handle_command_write] dispatches on [decode]. *)
Lemma lcd_handle_command_write_decode lcd :
  reg_rw (reg lcd) = false ->
  lcd_handle_command_write lcd =
  let cmd := reg_data (reg lcd) in
  match decode cmd with
  | IClear => (lcd_handle_clear_command lcd, true)
  | IHome => (lcd_handle_home_command lcd, false)
  | IEntryMode => (lcd_handle_entry_mode_command lcd cmd, false)
  | IDisplayControl => (lcd_handle_display_control_command lcd cmd, true)
  | IFunctionSet => (lcd_handle_function_set_command lcd cmd, true)
  | IShift => (lcd_handle_shift_command lcd cmd, true)
  | ISetCursor => (lcd_handle_set_cursor_command lcd cmd, false)
  | IIgnored => (lcd, false)
  end.
Proof.
  intros Hrw. unfold lcd_handle_command_write, decode. rewrite Hrw. simpl.
  repeat match goal with
  | |- context [if ?b then _ else _] => destruct b; try reflexivity
  end.
Qed.


Lemma instruction_eqb_eq i j : instruction_eqb i j = true -> i = j.
Proof. destruct i, j; simpl; congruence. Qed.

(** Every byte with the top bit set is a Set-DDRAM-address instruction. *)
Lemma decode_set_cursor cmd :
  0 <= cmd < 256 -> Z.land cmd LCD_SET_CURSOR_CMD <> 0 ->
  decode cmd = ISetCursor.
Proof.
  intros Hc Hb.
  pose proof (byte_cases
    (fun c => (Z.land c LCD_SET_CURSOR_CMD =? 0)
              || instruction_eqb (decode c) ISetCursor)) as H.
  specialize (H ltac:(vm_compute; reflexivity) cmd Hc). simpl in H.
  apply orb_true_iff in H as [H|H].
  - apply Z.eqb_eq in H. contradiction.
  - now apply instruction_eqb_eq.
Qed.

(** The bytes [0x18 .. 0x1F], the display-shift instructions of the
    HD44780 (pattern [0001 1 R/L x x]), match no test of the decoder. *)
Lemma decode_display_shift_ignored cmd :
  0 <= cmd < 256 ->
  Z.land cmd 0xF0 = LCD_CMD_SHIFT_BASE -> Z.land cmd 0x08 <> 0 ->
  decode cmd = IIgnored.
Proof.
  intros Hc Hg Hb.
  pose proof (byte_cases
    (fun c => negb (Z.land c 0xF0 =? LCD_CMD_SHIFT_BASE)
              || (Z.land c 0x08 =? 0)
              || instruction_eqb (decode c) IIgnored)) as H.
  specialize (H ltac:(vm_compute; reflexivity) cmd Hc). simpl in H.
  apply orb_true_iff in H as [H|H]; [apply orb_true_iff in H as [H|H]|].
  - apply negb_true_iff, Z.eqb_neq in H. contradiction.
  - apply Z.eqb_eq in H. contradiction.
  - now apply instruction_eqb_eq.
Qed.

(** No byte is decoded as a shift with bit 3 set: the display-shift
    branch of [lcd_handle_shift_command] is never entered. *)
Lemma decode_shift_cursor_only cmd :
  decode cmd = IShift -> Z.land cmd 0x08 = 0 /\ Z.land cmd 0x04 = 0.
Proof.
  unfold decode.
  repeat match goal with
  | |- context [if ?b then _ else _] => destruct b eqn:?; try discriminate
  end.
  intros _. apply shift_group_bits. now apply Z.eqb_eq.
Qed.

(** ** What no write changes *)

Ltac split_ifs :=
  repeat match goal with
  | |- context [if ?b then _ else _] => destruct b
  end.

Lemma same_shape_refl st : same_shape st st.
Proof. repeat split. Qed.

Lemma same_shape_trans st1 st2 st3 :
  same_shape st1 st2 -> same_shape st2 st3 -> same_shape st1 st3.
Proof. unfold same_shape. intros (?&?&?&?) (?&?&?&?). repeat split; congruence. Qed.

Lemma lcd_advance_cursor_shape st : same_shape st (lcd_advance_cursor st).
Proof.
  destruct st. unfold lcd_advance_cursor. simpl.
  split_ifs; repeat split.
Qed.

Lemma lcd_handle_shift_command_shape st cmd :
  same_shape st (lcd_handle_shift_command st cmd).
Proof.
  destruct st. unfold lcd_handle_shift_command. simpl.
  split_ifs; simpl; split_ifs; simpl; split_ifs; repeat split.
Qed.

Lemma lcd_handle_set_cursor_command_shape st cmd :
  same_shape st (lcd_handle_set_cursor_command st cmd).
Proof.
  unfold lcd_handle_set_cursor_command, lcd_set_cursor.
  destruct (ddram_addr_to_position st _) as [[r c]|];
    destruct st; simpl; split_ifs; repeat split.
Qed.

Lemma lcd_handle_command_write_shape st :
  same_shape st (fst (lcd_handle_command_write st)).
Proof.
  unfold lcd_handle_command_write.
  repeat match goal with
  | |- same_shape _ (fst (if ?b then _ else _)) => destruct b; simpl fst
  end;
    try apply same_shape_refl;
    try apply lcd_handle_shift_command_shape;
    try apply lcd_handle_set_cursor_command_shape;
    destruct st; repeat split; simpl.
  apply memset_length.
Qed.

Lemma lcd_handle_data_write_shape st :
  same_shape st (fst (lcd_handle_data_write st)).
Proof.
  unfold lcd_handle_data_write.
  destruct (reg_rw (reg st)); [apply same_shape_refl|].
  destruct (current_col st <? cols st); [|apply same_shape_refl].
  simpl fst. eapply same_shape_trans; [|apply lcd_advance_cursor_shape].
  destruct st; repeat split; simpl. apply buf_store_length.
Qed.

Lemma lcd_execute_command_shape st :
  same_shape st (fst (lcd_execute_command st)).
Proof.
  unfold lcd_execute_command.
  destruct (reg_e (reg_prev st) && negb (reg_e (reg st)));
    [|apply same_shape_refl].
  destruct (reg_rs (reg st)).
  - pose proof (lcd_handle_data_write_shape st) as H.
    destruct (lcd_handle_data_write st) as [st' []]; exact H.
  - pose proof (lcd_handle_command_write_shape st) as H.
    destruct (lcd_handle_command_write st) as [st' []]; exact H.
Qed.

Lemma lcd_write32_shape st a v : same_shape st (fst (lcd_write32 st a v)).
Proof.
  unfold lcd_write32.
  destruct (_ =? REGISTER_DATA); [destruct st; repeat split|].
  destruct (_ =? REGISTER_CONTROL); [|apply same_shape_refl].
  eapply same_shape_trans; [|apply lcd_execute_command_shape].
  destruct st; repeat split.
Qed.

Lemma run_shape st ws : same_shape st (fst (run st ws)).
Proof.
  revert st. induction ws as [|[a v] ws IH]; intros st; simpl;
    [apply same_shape_refl|].
  pose proof (lcd_write32_shape st a v) as H1.
  destruct (lcd_write32 st a v) as [st1 o1]. simpl in H1.
  specialize (IH st1). destruct (run st1 ws) as [st2 o2].
  eapply same_shape_trans; eassumption.
Qed.

Lemma same_shape_sized st st' : same_shape st st' -> lcd_sized st -> lcd_sized st'.
Proof.
  unfold same_shape, lcd_sized, buffer_sized.
  intros (Hr & Hc & _ & Hl) (? & ? & ?). rewrite Hr, Hc, Hl. auto.
Qed.

(** ** The shift offset *)

Lemma lcd_handle_command_write_offset_zero st :
  display_shift_offset st = 0 ->
  display_shift_offset (fst (lcd_handle_command_write st)) = 0.
Proof.
  intros Hz. destruct (reg_rw (reg st)) eqn:Hrw.
  - unfold lcd_handle_command_write. now rewrite Hrw.
  - rewrite lcd_handle_command_write_decode by exact Hrw. cbv zeta.
    destruct (decode (reg_data (reg st))) eqn:Hd; simpl fst;
      try (destruct st; simpl in *; assumption || reflexivity).
    + apply decode_shift_cursor_only in Hd as [H8 H4].
      unfold lcd_handle_shift_command. rewrite H8, H4.
      destruct st; simpl in *. split_ifs; simpl; assumption.
    + unfold lcd_handle_set_cursor_command, lcd_set_cursor.
      destruct (ddram_addr_to_position st _) as [[r c]|];
        destruct st; simpl in *; split_ifs; simpl; assumption.
Qed.

Lemma lcd_handle_data_write_offset st :
  display_shift_offset (fst (lcd_handle_data_write st)) =
  display_shift_offset st.
Proof.
  unfold lcd_handle_data_write, lcd_advance_cursor.
  destruct st; simpl. split_ifs; reflexivity.
Qed.

Lemma lcd_write32_offset_zero st a v :
  display_shift_offset st = 0 ->
  display_shift_offset (fst (lcd_write32 st a v)) = 0.
Proof.
  intros Hz. unfold lcd_write32.
  destruct (_ =? REGISTER_DATA); [destruct st; exact Hz|].
  destruct (_ =? REGISTER_CONTROL); [|exact Hz].
  unfold lcd_execute_command.
  match goal with
  | |- context [if ?b then _ else _] => destruct b; [|destruct st; exact Hz]
  end.
  match goal with
  | |- context [if reg_rs (reg ?s) then _ else _] =>
      set (st1 := s);
      assert (Hz1 : display_shift_offset st1 = 0) by (destruct st; exact Hz);
      destruct (reg_rs (reg st1))
  end.
  - pose proof (lcd_handle_data_write_offset st1) as H.
    destruct (lcd_handle_data_write st1) as [st' []]; simpl in *; congruence.
  - pose proof (lcd_handle_command_write_offset_zero st1 Hz1) as H.
    destruct (lcd_handle_command_write st1) as [st' []]; exact H.
Qed.

Lemma run_states_offset_zero st ws :
  display_shift_offset st = 0 ->
  Forall (fun s => display_shift_offset s = 0) (run_states st ws).
Proof.
  revert st. induction ws as [|[a v] ws IH]; intros st Hz; simpl.
  - constructor.
  - pose proof (lcd_write32_offset_zero st a v Hz). constructor; auto.
Qed.

Lemma run_offset_zero st ws :
  display_shift_offset st = 0 -> display_shift_offset (fst (run st ws)) = 0.
Proof.
  revert st. induction ws as [|[a v] ws IH]; intros st Hz; simpl; [exact Hz|].
  pose proof (lcd_write32_offset_zero st a v Hz) as H1.
  destruct (lcd_write32 st a v) as [st1 o1]. simpl in H1.
  specialize (IH st1 H1). destruct (run st1 ws) as [st2 o2]. exact IH.
Qed.

(** * The claims *)

Lemma lcd_16x2_init :
  dlcd_init phys_range_36 16 2 0x1000 reg_zero reg_zero = inr lcd_16x2.
Proof. reflexivity. Qed.

(** ** Construction *)

(** C10: immediately after a successful [dlcd_init] the display is off,
    the entry mode is increment, the controller is in single-line mode,
    the shift offset is 0, the cursor is at (0,0) and every one of the
    [rows * cols] cells of the character buffer is zero. *)
Theorem dlcd_init_initial_state phys_range pc pr pa r0 r1 st :
  dlcd_init phys_range pc pr pa r0 r1 = inr st ->
  display_on st = false /\
  increment_mode st = true /\
  multi_line_mode st = false /\
  display_shift_offset st = 0 /\
  current_row st = 0 /\ current_col st = 0 /\
  Forall (eq 0) (buffer st) /\
  length (buffer st) = Z.to_nat (rows st * cols st).
Proof.
  intros Hinit. apply dlcd_init_inr in Hinit as [_ ->]. simpl.
  repeat split; try reflexivity.
  - apply Forall_replicate_eq.
  - apply length_replicate.
Qed.

Lemma dlcd_init_initial_state_witness :
  display_on lcd_16x2 = false /\
  increment_mode lcd_16x2 = true /\
  multi_line_mode lcd_16x2 = false /\
  display_shift_offset lcd_16x2 = 0 /\
  current_row lcd_16x2 = 0 /\ current_col lcd_16x2 = 0 /\
  Forall (eq 0) (buffer lcd_16x2) /\
  length (buffer lcd_16x2) = Z.to_nat (rows lcd_16x2 * cols lcd_16x2).
Proof.
  apply (dlcd_init_initial_state phys_range_36 16 2 0x1000 reg_zero reg_zero).
  reflexivity.
Defined.

(** C3, as stated, fails: a geometry with zero rows (or zero columns)
    passes every check of [dlcd_init] and a device is created. *)
Lemma dlcd_init_accepts_zero_rows :
  exists st,
    dlcd_init phys_range_36 16 0 0x1000 reg_zero reg_zero = inr st /\
    rows st = 0 /\ ~ (1 <= rows st <= 4).
Proof.
  exists (mk_lcd 0 16 0 0 reg_zero reg_zero [] 0x1000 false true 0 false).
  split; [reflexivity|]. simpl. split; [reflexivity|lia].
Qed.

(** C3, amended: construction succeeds, with the given geometry, exactly
    when [cols <= 40], [rows <= 4] and both the base address and the
    address 4 past it pass [phys_range]; otherwise it ends in a
    configuration error and there is no device.  No lower bound on the
    geometry is checked. *)
Theorem dlcd_init_succeeds_iff phys_range pc pr pa r0 r1 :
  ((exists st, dlcd_init phys_range pc pr pa r0 r1 = inr st /\
               rows st = C.uint32 pr /\ cols st = C.uint32 pc)
   <->
   (C.uint32 pc <= 40 /\ C.uint32 pr <= 4 /\
    phys_range (C.uint64 pa) = true /\
    phys_range (C.uint64 (C.uint64 pa + 4)) = true))
  /\
  ((exists err, dlcd_init phys_range pc pr pa r0 r1 = inl err)
   <->
   (C.uint32 pc > 40 \/ C.uint32 pr > 4 \/
    phys_range (C.uint64 pa) = false \/
    phys_range (C.uint64 (C.uint64 pa + 4)) = false)).
Proof.
  change 4 with REGISTER_LIMIT at 2 4.
  split; split.
  - intros (st & Hinit & _). now apply dlcd_init_inr in Hinit as [Hok _].
  - intros Hok. destruct (dlcd_init_ok phys_range pc pr pa r0 r1 Hok) as [st Hst].
    exists st. split; [exact Hst|].
    apply dlcd_init_inr in Hst as [_ ->]. split; reflexivity.
  - intros [err Herr]. unfold dlcd_init in Herr.
    destruct (Z.gtb_spec (C.uint32 pc) LCD_MAX_COLS) as [Hc|Hc];
      [left; unfold LCD_MAX_COLS in Hc; lia|].
    destruct (Z.gtb_spec (C.uint32 pr) LCD_MAX_ROWS) as [Hr|Hr];
      [right; left; unfold LCD_MAX_ROWS in Hr; lia|].
    destruct (phys_range (C.uint64 pa)); [|tauto].
    destruct (phys_range (C.uint64 (C.uint64 pa + REGISTER_LIMIT)));
      [discriminate|tauto].
  - intros Hbad.
    destruct (dlcd_init phys_range pc pr pa r0 r1) as [err|st] eqn:Hinit;
      [eauto|].
    apply dlcd_init_inr in Hinit as [(Hc & Hr & Ha & Hl) _].
    unfold LCD_MAX_COLS, LCD_MAX_ROWS in *.
    destruct Hbad as [?|[?|[?|?]]]; try lia; congruence.
Qed.

(** ** The state invariant *)

(** C4, as stated, fails: construction succeeds with zero rows, and for
    that device the cursor row 0 is not below [rows], initially and
    after each write. *)
Lemma zero_rows_device_breaks_invariant :
  exists st0,
    dlcd_init phys_range_36 16 0 0x1000 reg_zero reg_zero = inr st0 /\
    ~ lcd_inv st0 /\
    Forall (fun st => ~ lcd_inv st)
           (run_states st0 [(0x1000, 65); (0x1001, 4)]).
Proof.
  exists (mk_lcd 0 16 0 0 reg_zero reg_zero [] 0x1000 false true 0 false).
  split; [reflexivity|]. split.
  - unfold lcd_inv. simpl. lia.
  - repeat constructor; unfold lcd_inv; vm_compute; intros [[_ H] _];
      discriminate H.
Qed.

(** C4, amended: for an instance constructed with [1 <= rows <= 4] and
    [1 <= cols <= 40] (bounds that construction itself does not
    guarantee from below), after each write of any sequence of register
    writes the cursor row is in [[0, rows)], the cursor column in
    [[0, cols)] and the shift offset in [[-cols, cols]]. *)
Theorem writes_keep_invariant phys_range pc pr pa r0 r1 st0 ws :
  dlcd_init phys_range pc pr pa r0 r1 = inr st0 ->
  1 <= rows st0 <= 4 -> 1 <= cols st0 <= 40 ->
  lcd_inv st0 /\
  Forall (fun st =>
            rows st = rows st0 /\ cols st = cols st0 /\
            (0 <= current_row st < rows st) /\
            (0 <= current_col st < cols st) /\
            (- cols st <= display_shift_offset st <= cols st))
         (run_states st0 ws).
Proof.
  intros Hinit Hr Hc.
  assert (Hok : lcd_ok st0).
  { apply dlcd_init_inr in Hinit as [_ ->]. simpl in *. unfold_ok. lia. }
  split; [apply Hok|]. clear Hinit.
  assert (Hgen : forall st, lcd_ok st -> same_shape st0 st ->
            Forall (fun s => rows s = rows st0 /\ cols s = cols st0 /\
                      (0 <= current_row s < rows s) /\
                      (0 <= current_col s < cols s) /\
                      (- cols s <= display_shift_offset s <= cols s))
                   (run_states st ws)).
  { induction ws as [|[a v] ws IH]; intros st Hst Hsh; simpl; constructor.
    - pose proof (lcd_write32_ok st a v Hst) as [_ Hi].
      pose proof (lcd_write32_shape st a v) as Hs.
      pose proof (same_shape_trans _ _ _ Hsh Hs) as (? & ? & _).
      unfold lcd_inv in Hi. tauto.
    - apply IH; [now apply lcd_write32_ok|].
      eapply same_shape_trans; [exact Hsh|apply lcd_write32_shape]. }
  apply Hgen; [exact Hok|apply same_shape_refl].
Qed.

(** C9: in every state reached from construction by register writes the
    shift offset is 0. *)
Theorem shift_offset_always_zero phys_range pc pr pa r0 r1 st0 ws :
  dlcd_init phys_range pc pr pa r0 r1 = inr st0 ->
  display_shift_offset st0 = 0 /\
  Forall (fun st => display_shift_offset st = 0) (run_states st0 ws) /\
  display_shift_offset (fst (run st0 ws)) = 0.
Proof.
  intros Hinit.
  assert (Hz : display_shift_offset st0 = 0)
    by (apply dlcd_init_inr in Hinit as [_ ->]; reflexivity).
  split; [exact Hz|]. split.
  - now apply run_states_offset_zero.
  - now apply run_offset_zero.
Qed.

Lemma writes_keep_invariant_witness :
  lcd_inv lcd_16x2 /\
  Forall (fun st =>
            rows st = rows lcd_16x2 /\ cols st = cols lcd_16x2 /\
            (0 <= current_row st < rows st) /\
            (0 <= current_col st < cols st) /\
            (- cols st <= display_shift_offset st <= cols st))
         (run_states lcd_16x2 sample_writes).
Proof.
  apply (writes_keep_invariant phys_range_36 16 2 0x1000 reg_zero reg_zero);
    [reflexivity | simpl; lia | simpl; lia].
Defined.

Lemma shift_offset_always_zero_witness :
  display_shift_offset lcd_16x2 = 0 /\
  Forall (fun st => display_shift_offset st = 0)
         (run_states lcd_16x2 sample_writes) /\
  display_shift_offset (fst (run lcd_16x2 sample_writes)) = 0.
Proof.
  apply (shift_offset_always_zero phys_range_36 16 2 0x1000 reg_zero reg_zero).
  reflexivity.
Defined.

(** The session of [sample_writes] ends with two-line mode on, the
    display on, 'A' in the first cell and the cursor at (0,1); it prints
    three frames. *)
Example sample_writes_result :
  let '(st, out) := run lcd_16x2 sample_writes in
  multi_line_mode st = true /\ display_on st = true /\
  buf_load (buffer st) 0 = 65 /\
  current_row st = 0 /\ current_col st = 1 /\
  length out = 3%nat /\
  List.last out [] = [65 :: replicate 15 32; replicate 16 32].
Proof. vm_compute. repeat split. Qed.

(** ** Display shift *)

(** What [lcd_handle_shift_command] does with a byte that has bits 3 and
    2 set: the offset moves one to the right, up to [cols]. *)
Lemma lcd_handle_shift_command_display_right st cmd :
  lcd_ok st -> Z.land cmd 0x08 <> 0 -> Z.land cmd 0x04 <> 0 ->
  display_shift_offset (lcd_handle_shift_command st cmd) =
  Z.min (display_shift_offset st + 1) (cols st).
Proof.
  intros Hok H8 H4. unfold lcd_handle_shift_command.
  destruct (Z.eqb_spec (Z.land cmd 8) 0); [contradiction|].
  destruct (Z.eqb_spec (Z.land cmd 4) 0); [contradiction|].
  destruct st as [rs cs r c rg rp buf a don inc off ml].
  unfold_ok. int32_simpl. zcases; int32_simpl; lia.
Qed.

(** The decoder never hands it such a byte: issued through the register
    interface, the bytes [0x18 .. 0x1F] change nothing and print
    nothing. *)
Lemma issue_display_shift_ignored st cmd :
  0 <= cmd < 256 ->
  Z.land cmd 0xF0 = LCD_CMD_SHIFT_BASE -> Z.land cmd 0x08 <> 0 ->
  controller_unchanged st (fst (issue_command st cmd)) /\
  snd (issue_command st cmd) = [].
Proof.
  intros Hc Hg Hb. rewrite issue_command_eq.
  rewrite lcd_handle_command_write_decode by reflexivity. cbv zeta.
  replace (reg_data (reg (latched st false false cmd))) with cmd
    by (destruct st; simpl; now rewrite uint8_byte).
  rewrite decode_display_shift_ignored by assumption.
  split; [apply latched_unchanged|reflexivity].
Qed.

(** C1: on the 16-column display, the display-shift-right instruction
    [0x1C] (bits 3 and 2 set), issued with an enable pulse, leaves the
    shift offset at 0, once and after 17 repetitions: the decoder's test
    [(cmd & 0xFC) == 0x10] rejects the byte and no other test takes it. *)
Theorem display_shift_right_has_no_effect :
  decode 0x1C = IIgnored /\
  display_shift_offset lcd_16x2 = 0 /\ cols lcd_16x2 = 16 /\
  display_shift_offset (fst (issue_command lcd_16x2 0x1C)) = 0 /\
  display_shift_offset (repeat_command 17 lcd_16x2 0x1C) = 0.
Proof. vm_compute. repeat split. Qed.

(** ** Set DDRAM address *)

(** C2, as stated, fails: in single-line mode with the cursor on the
    second row, the address [0x30] lies in no row's range of the 16x2
    display, the instruction [0xB0] is a no-op and the row stays 1. *)
Lemma set_ddram_unmatched_keeps_row :
  multi_line_mode lcd_16x2_second_line = false /\
  current_row lcd_16x2_second_line = 1 /\
  ddram_addr_to_position lcd_16x2_second_line
    (Z.land 0xB0 LCD_SET_CURSOR_MASK) = None /\
  current_row (fst (issue_command lcd_16x2_second_line 0xB0)) = 1 /\
  current_row (fst (issue_command lcd_16x2_second_line 0xB0)) <> 0.
Proof. vm_compute. repeat split. discriminate. Qed.

(** C2, amended: in single-line mode a Set-DDRAM-address instruction whose
    7-bit address lies in the range of some configured row puts the
    cursor on row 0, at the translated column, whichever row matched; an
    address in no row's range leaves the cursor where it is. *)
Theorem set_ddram_single_line st cmd :
  multi_line_mode st = false ->
  0 <= cmd < 256 -> Z.land cmd LCD_SET_CURSOR_CMD <> 0 ->
  let st' := fst (issue_command st cmd) in
  match ddram_addr_to_position st (Z.land cmd LCD_SET_CURSOR_MASK) with
  | Some (_, col) => current_row st' = 0 /\ current_col st' = col
  | None =>
      current_row st' = current_row st /\ current_col st' = current_col st
  end.
Proof.
  intros Hml Hc Hb. cbv zeta. rewrite issue_command_eq.
  rewrite lcd_handle_command_write_decode by reflexivity. cbv zeta.
  replace (reg_data (reg (latched st false false cmd))) with cmd
    by (destruct st; simpl; now rewrite uint8_byte).
  rewrite decode_set_cursor by assumption. simpl fst.
  unfold lcd_handle_set_cursor_command.
  replace (multi_line_mode (latched st false false cmd)) with false
    by (destruct st; simpl in *; congruence).
  replace (ddram_addr_to_position (latched st false false cmd))
    with (ddram_addr_to_position st) by (destruct st; reflexivity).
  simpl negb. cbv iota.
  destruct (ddram_addr_to_position st _) as [[r c]|];
    destruct st; simpl; split; reflexivity.
Qed.

Lemma set_ddram_single_line_witness :
  current_row (fst (issue_command lcd_16x2_second_line 0xC5)) = 0 /\
  current_col (fst (issue_command lcd_16x2_second_line 0xC5)) = 5.
Proof.
  pose proof (set_ddram_single_line lcd_16x2_second_line 0xC5) as H.
  apply H; [reflexivity | lia | vm_compute; discriminate].
Defined.

(** ** Data writes *)

(** C5: in increment mode with the cursor at the last column, a data
    write moves the cursor to column 0; the row is unchanged in
    single-line mode and becomes [(row + 1) mod rows] in multi-line
    mode. *)
Theorem data_write_wraps_at_last_column st byte :
  lcd_ok st ->
  increment_mode st = true ->
  current_col st = cols st - 1 ->
  let st' := fst (issue_data st byte) in
  current_col st' = 0 /\
  current_row st' =
    (if multi_line_mode st then (current_row st + 1) mod rows st
     else current_row st) /\
  buffer st' =
    <[Z.to_nat (current_row st * cols st + current_col st) := C.uint8 byte]>
      (buffer st).
Proof.
  intros Hok Hinc Hcol. cbv zeta. rewrite issue_data_eq.
  destruct st as [rs cs r c rg rp buf a don inc off ml].
  unfold_ok. subst inc c.
  unfold lcd_handle_data_write, latched, lcd_advance_cursor, buf_store. simpl.
  destruct (Z.ltb_spec (cs - 1) cs); [|lia]. simpl.
  int32_simpl. replace (cs - 1 + 1) with cs by lia.
  rewrite Z.geb_leb, Z.leb_refl.
  destruct (Z.leb_spec 0 (r * cs + (cs - 1))); [|nia].
  destruct ml; simpl; repeat split; try reflexivity.
  apply rem_is_mod; lia.
Qed.

Lemma data_write_wraps_at_last_column_witness :
  let st := set_multi_line_mode true (set_current_col 15 lcd_16x2) in
  let st' := fst (issue_data st 65) in
  current_col st' = 0 /\
  current_row st' = (0 + 1) mod 2 /\
  buffer st' = <[15%nat := 65]> (buffer st).
Proof.
  apply (data_write_wraps_at_last_column
           (set_multi_line_mode true (set_current_col 15 lcd_16x2)) 65);
    [unfold_ok; lia | reflexivity | reflexivity].
Defined.

(** ** The enable edge *)

(** C6: a write to the control register executes nothing unless enable
    was high before the write, is low in the written value, and the
    written read/write bit is low.  In every other case only the two
    register snapshots change, and nothing is printed. *)
Theorem control_write_without_edge st a val :
  C.uint64 (a - addr st) = REGISTER_CONTROL ->
  reg_e (reg st) = false \/
  reg_e (reg_of_value val) = true \/
  reg_rw (reg_of_value val) = true ->
  let '(st', out) := lcd_write32 st a val in
  controller_unchanged st st' /\ out = [] /\
  reg_prev st' = reg st /\
  reg st' = mk_reg (reg_rs (reg_of_value val)) (reg_rw (reg_of_value val))
              (reg_e (reg_of_value val)) (reg_data (reg st)).
Proof.
  intros Ha Hcase. rewrite lcd_write32_control by exact Ha.
  unfold reg_of_value in *. cbn [reg_rs reg_rw reg_e] in *.
  revert Hcase.
  generalize (Z.testbit val 0) (Z.testbit val 1) (Z.testbit val 2).
  intros b0 b1 b2 Hcase.
  destruct st as [rs cs r c [rs0 rw0 e0 d0] rp buf a0 don inc off ml].
  unfold lcd_execute_command, lcd_handle_data_write, lcd_handle_command_write.
  cbn [reg reg_prev reg_e reg_rw reg_rs reg_data set_reg set_reg_prev] in *.
  destruct e0, b2, b1; cbn [andb negb];
    try (destruct Hcase as [Hf|[Hf|Hf]]; discriminate Hf);
    destruct b0; repeat split; reflexivity.
Qed.

Lemma control_write_without_edge_witness :
  let '(st', out) :=
    lcd_write32 (fst (lcd_write32 lcd_16x2 0x1000 0x01)) 0x1001 0 in
  controller_unchanged (fst (lcd_write32 lcd_16x2 0x1000 0x01)) st' /\
  out = [] /\
  reg_prev st' = reg (fst (lcd_write32 lcd_16x2 0x1000 0x01)) /\
  reg st' = mk_reg false false false 1.
Proof.
  apply (control_write_without_edge
           (fst (lcd_write32 lcd_16x2 0x1000 0x01)) 0x1001 0);
    [reflexivity | left; reflexivity].
Defined.

(** ** Clear and Home *)

Lemma lcd_handle_clear_command_spec st :
  lcd_sized st ->
  let st' := lcd_handle_clear_command st in
  Forall (eq 0) (buffer st') /\
  length (buffer st') = Z.to_nat (rows st * cols st) /\
  current_row st' = 0 /\ current_col st' = 0 /\
  display_shift_offset st' = 0.
Proof.
  intros (Hr & Hc & Hlen). unfold buffer_sized, LCD_MAX_ROWS, LCD_MAX_COLS in *.
  destruct st as [rs cs r c rg rp buf a don inc off ml]. simpl in *.
  int32_simpl. rewrite memset_all by lia. rewrite Hlen.
  repeat split; try reflexivity.
  - apply Forall_replicate_eq.
  - apply length_replicate.
Qed.

(** C7: in every state reached from construction by register writes,
    the Clear instruction [0x01] leaves every cell of the buffer zero,
    the cursor at (0,0) and the shift offset 0, and the display is
    printed again. *)
Theorem clear_command_blanks phys_range pc pr pa r0 r1 st0 ws :
  dlcd_init phys_range pc pr pa r0 r1 = inr st0 ->
  let st := fst (run st0 ws) in
  let '(st', out) := issue_command st LCD_CMD_CLEAR in
  Forall (eq 0) (buffer st') /\
  length (buffer st') = Z.to_nat (rows st0 * cols st0) /\
  current_row st' = 0 /\ current_col st' = 0 /\
  display_shift_offset st' = 0 /\
  out = [lcd_print st'] /\
  fst (lcd_handle_command_write (latched st false false LCD_CMD_CLEAR)) = st' /\
  snd (lcd_handle_command_write (latched st false false LCD_CMD_CLEAR)) = true.
Proof.
  intros Hinit. cbv zeta.
  assert (Hs0 : lcd_sized st0).
  { apply dlcd_init_inr in Hinit as [(Hc & Hr & _) ->].
    pose proof (uint32_range pc). pose proof (uint32_range pr).
    unfold lcd_sized, buffer_sized. simpl.
    rewrite length_replicate. repeat split; lia. }
  pose proof (run_shape st0 ws) as Hsh.
  pose proof (same_shape_sized _ _ Hsh Hs0) as Hs.
  destruct Hsh as (Hrows & Hcols & _).
  set (st := fst (run st0 ws)) in *.
  rewrite issue_command_eq.
  assert (Hl : lcd_sized (latched st false false LCD_CMD_CLEAR))
    by (destruct st; exact Hs).
  assert (Hcmd : lcd_handle_command_write (latched st false false LCD_CMD_CLEAR)
                 = (lcd_handle_clear_command
                      (latched st false false LCD_CMD_CLEAR), true))
    by (destruct st; reflexivity).
  rewrite Hcmd.
  pose proof (lcd_handle_clear_command_spec _ Hl) as (HF & Hlen & R & Cc & O).
  repeat split; try assumption.
  rewrite Hlen, <- Hrows, <- Hcols. destruct st; reflexivity.
Qed.

Lemma clear_command_blanks_witness :
  let st := fst (run lcd_16x2 sample_writes) in
  let '(st', out) := issue_command st LCD_CMD_CLEAR in
  Forall (eq 0) (buffer st') /\
  length (buffer st') = Z.to_nat (rows lcd_16x2 * cols lcd_16x2) /\
  current_row st' = 0 /\ current_col st' = 0 /\
  display_shift_offset st' = 0 /\
  out = [lcd_print st'] /\
  fst (lcd_handle_command_write (latched st false false LCD_CMD_CLEAR)) = st' /\
  snd (lcd_handle_command_write (latched st false false LCD_CMD_CLEAR)) = true.
Proof.
  apply (clear_command_blanks phys_range_36 16 2 0x1000 reg_zero reg_zero
           lcd_16x2 sample_writes).
  reflexivity.
Defined.

(** C8: in every state the Home instruction [0x02] puts the cursor at
    (0,0) and the shift offset at 0, leaves the buffer (and the modes
    and the geometry) as it was, and prints nothing. *)
Theorem home_command_keeps_buffer st :
  let '(st', out) := issue_command st LCD_CMD_HOME in
  current_row st' = 0 /\ current_col st' = 0 /\
  display_shift_offset st' = 0 /\
  buffer st' = buffer st /\
  rows st' = rows st /\ cols st' = cols st /\
  display_on st' = display_on st /\
  increment_mode st' = increment_mode st /\
  multi_line_mode st' = multi_line_mode st /\
  out = [] /\
  snd (lcd_handle_command_write (latched st false false LCD_CMD_HOME)) = false.
Proof.
  rewrite issue_command_eq.
  destruct st as [rs cs r c rg rp buf a don inc off ml].
  simpl. repeat split; reflexivity.
Qed.

(** * Further properties of the controller *)

(** ** Address translation *)

Lemma rows_cases r : 1 <= r <= 4 -> r = 1 \/ r = 2 \/ r = 3 \/ r = 4.
Proof. lia. Qed.

(** [ddram_addr_to_position] in closed form, on the address as the
    function receives it (the [uint8_t] value [a8] of the argument): the
    first row, in table order, whose 40-address window contains the
    address.  Row 0 owns [0..39], row 2 what is left of its window
    ([40..59]), row 1 owns [64..103] and row 3 what is left of its
    window ([104..123]); the column is clamped to [cols - 1]; the
    addresses [60..63] and [124..255] are in no window. *)
Theorem ddram_addr_to_position_windows st a :
  lcd_geometry st ->
  let a8 := C.uint8 a in
  let pos := ddram_addr_to_position st a in
  let clamp c := Z.min c (cols st - 1) in
  0 <= a8 < 256 /\
  (0 <= a8 < 40 -> pos = Some (0, clamp a8)) /\
  (40 <= a8 < 60 ->
     pos = if 3 <=? rows st then Some (2, clamp (a8 - 20)) else None) /\
  (60 <= a8 < 64 -> pos = None) /\
  (64 <= a8 < 104 ->
     pos = if 2 <=? rows st then Some (1, clamp (a8 - 64)) else None) /\
  (104 <= a8 < 124 ->
     pos = if 4 <=? rows st then Some (3, clamp (a8 - 84)) else None) /\
  (124 <= a8 -> pos = None).
Proof.
  intros [Hr Hc]. cbv zeta. unfold ddram_addr_to_position.
  assert (Hbyte : 0 <= C.uint8 a < 256)
    by (unfold C.uint8; apply Z.mod_pos_bound; lia).
  split; [exact Hbyte|]. clear Hbyte.
  generalize (C.uint8 a). intros a8.
  destruct st as [rs cs r c rg rp buf a0 don inc off ml].
  unfold LCD_MAX_ROWS, LCD_MAX_COLS in *. simpl in *.
  destruct (rows_cases rs Hr) as [-> | [-> | [-> | ->]]];
    repeat split; intros Ha; simpl;
    unfold LCD_MAX_COLS; zcases; int32_simpl;
    try reflexivity; try lia; repeat f_equal; lia.
Qed.

Lemma ddram_addr_to_position_windows_witness :
  let a8 := C.uint8 0x114 in
  let pos := ddram_addr_to_position lcd_20x4 0x114 in
  let clamp c := Z.min c (cols lcd_20x4 - 1) in
  0 <= a8 < 256 /\
  (0 <= a8 < 40 -> pos = Some (0, clamp a8)) /\
  (40 <= a8 < 60 ->
     pos = if 3 <=? rows lcd_20x4 then Some (2, clamp (a8 - 20)) else None) /\
  (60 <= a8 < 64 -> pos = None) /\
  (64 <= a8 < 104 ->
     pos = if 2 <=? rows lcd_20x4 then Some (1, clamp (a8 - 64)) else None) /\
  (104 <= a8 < 124 ->
     pos = if 4 <=? rows lcd_20x4 then Some (3, clamp (a8 - 84)) else None) /\
  (124 <= a8 -> pos = None).
Proof.
  apply (ddram_addr_to_position_windows lcd_20x4 0x114).
  unfold lcd_geometry, LCD_MAX_ROWS, LCD_MAX_COLS. simpl. lia.
Defined.

(** On a display of one or two rows the translation inverts the row
    address map: the address [row_addr_map[r] + c] of a cell [(r, c)] of
    the display is translated back to [(r, c)]. *)
Theorem ddram_round_trip_two_rows st r c :
  lcd_geometry st -> rows st <= 2 ->
  0 <= r < rows st -> 0 <= c < cols st ->
  exists base,
    row_addr_map !! Z.to_nat r = Some base /\
    ddram_addr_to_position st (base + c) = Some (r, c).
Proof.
  intros [Hr Hc] H2 Hrow Hcol.
  unfold LCD_MAX_ROWS, LCD_MAX_COLS in *.
  assert (Hrs : rows st = 1 \/ rows st = 2) by lia.
  assert (Hrr : r = 0 \/ r = 1) by lia.
  destruct Hrr as [-> | ->];
    [exists 0x00 | exists 0x40]; (split; [reflexivity|]);
    rewrite ddram_addr_to_position_byte by lia;
    destruct st as [rs cs r0 c0 rg rp buf a0 don inc off ml]; simpl in *;
    destruct Hrs as [-> | ->]; try lia; simpl;
    unfold LCD_MAX_COLS; zcases; int32_simpl;
    try reflexivity; try lia; repeat f_equal; lia.
Qed.

Lemma ddram_round_trip_two_rows_witness :
  exists base,
    row_addr_map !! Z.to_nat 1 = Some base /\
    ddram_addr_to_position lcd_16x2 (base + 7) = Some (1, 7).
Proof.
  apply (ddram_round_trip_two_rows lcd_16x2 1 7);
    unfold lcd_geometry, LCD_MAX_ROWS, LCD_MAX_COLS; simpl; lia.
Defined.

(** With three or four rows the windows of rows 0 and 2, and of rows 1
    and 3, overlap and the earlier row wins: the address
    [row_addr_map[r] + c] of a cell of row 2 or 3 is translated to that
    cell only from column 20 on; for [c < 20] it lands two rows higher,
    at column [20 + c] clamped to the last column. *)
Theorem ddram_rows_2_3_alias st r c :
  lcd_geometry st ->
  2 <= r < rows st -> 0 <= c < cols st ->
  exists base,
    row_addr_map !! Z.to_nat r = Some base /\
    ddram_addr_to_position st (base + c) =
    if c <? 20 then Some (r - 2, Z.min (20 + c) (cols st - 1))
    else Some (r, c).
Proof.
  intros [Hr Hc] Hrow Hcol.
  unfold LCD_MAX_ROWS, LCD_MAX_COLS in *.
  assert (Hrs : rows st = 3 \/ rows st = 4) by lia.
  assert (Hrr : r = 2 \/ r = 3) by lia.
  destruct Hrr as [-> | ->];
    [exists 0x14 | exists 0x54]; (split; [reflexivity|]);
    rewrite ddram_addr_to_position_byte by lia;
    destruct st as [rs cs r0 c0 rg rp buf a0 don inc off ml]; simpl in *;
    destruct Hrs as [-> | ->]; try lia; simpl;
    unfold LCD_MAX_COLS; zcases; int32_simpl;
    try reflexivity; try lia; repeat f_equal; lia.
Qed.

Lemma ddram_rows_2_3_alias_witness :
  exists base,
    row_addr_map !! Z.to_nat 2 = Some base /\
    ddram_addr_to_position lcd_20x4 (base + 0) =
    if 0 <? 20 then Some (2 - 2, Z.min (20 + 0) (cols lcd_20x4 - 1))
    else Some (2, 0).
Proof.
  apply (ddram_rows_2_3_alias lcd_20x4 2 0);
    unfold lcd_geometry, LCD_MAX_ROWS, LCD_MAX_COLS; simpl; lia.
Defined.

(** ** Set DDRAM address in multi-line mode *)

(** In multi-line mode a Set-DDRAM-address instruction moves the cursor to
    the translated position, row included; an address in no row's
    window leaves the cursor where it is.  Nothing else changes and
    nothing is printed. *)
Theorem set_ddram_multi_line st cmd :
  multi_line_mode st = true ->
  0 <= cmd < 256 -> Z.land cmd LCD_SET_CURSOR_CMD <> 0 ->
  let '(st', out) := issue_command st cmd in
  same_but_cursor st st' /\ out = [] /\
  match ddram_addr_to_position st (Z.land cmd LCD_SET_CURSOR_MASK) with
  | Some (row, col) => current_row st' = row /\ current_col st' = col
  | None =>
      current_row st' = current_row st /\ current_col st' = current_col st
  end.
Proof.
  intros Hml Hc Hb. rewrite issue_command_eq.
  rewrite lcd_handle_command_write_decode by reflexivity. cbv zeta.
  replace (reg_data (reg (latched st false false cmd))) with cmd
    by (destruct st; simpl; now rewrite uint8_byte).
  rewrite decode_set_cursor by assumption.
  unfold lcd_handle_set_cursor_command, lcd_set_cursor.
  replace (multi_line_mode (latched st false false cmd)) with true
    by (destruct st; simpl in *; congruence).
  replace (ddram_addr_to_position (latched st false false cmd))
    with (ddram_addr_to_position st) by (destruct st; reflexivity).
  simpl negb. cbv iota.
  destruct (ddram_addr_to_position st _) as [[r c]|];
    destruct st; simpl; repeat split; reflexivity.
Qed.

Lemma set_ddram_multi_line_witness :
  let st := set_multi_line_mode true lcd_16x2 in
  let '(st', out) := issue_command st 0xC5 in
  same_but_cursor st st' /\ out = [] /\
  match ddram_addr_to_position st (Z.land 0xC5 LCD_SET_CURSOR_MASK) with
  | Some (row, col) => current_row st' = row /\ current_col st' = col
  | None =>
      current_row st' = current_row st /\ current_col st' = current_col st
  end.
Proof.
  apply (set_ddram_multi_line (set_multi_line_mode true lcd_16x2) 0xC5);
    [reflexivity | lia | vm_compute; discriminate].
Defined.

(** ** Data writes *)

(** One data byte, in full: the cell under the cursor takes the byte,
    the cursor moves one column in the entry-mode direction and wraps at
    the edge, the frame is printed. *)
Lemma issue_data_spec st b :
  lcd_ok st ->
  let st' := fst (issue_data st b) in
  let wrap :=
    if increment_mode st then negb (current_col st + 1 <? cols st)
    else negb (0 <? current_col st) in
  buffer st' = <[cursor_index st := C.uint8 b]> (buffer st) /\
  rows st' = rows st /\ cols st' = cols st /\ addr st' = addr st /\
  display_on st' = display_on st /\
  increment_mode st' = increment_mode st /\
  display_shift_offset st' = display_shift_offset st /\
  multi_line_mode st' = multi_line_mode st /\
  current_col st' =
    (if increment_mode st
     then if wrap then 0 else current_col st + 1
     else if wrap then cols st - 1 else current_col st - 1) /\
  current_row st' =
    (if wrap && multi_line_mode st
     then if increment_mode st
          then (current_row st + 1) mod rows st
          else (current_row st - 1 + rows st) mod rows st
     else current_row st) /\
  snd (issue_data st b) = [lcd_print st'].
Proof.
  intros Hok. cbv zeta. rewrite issue_data_eq.
  destruct st as [rs cs r c rg rp buf a don inc off ml].
  unfold_ok. unfold cursor_index. simpl.
  unfold lcd_handle_data_write, latched, lcd_advance_cursor, buf_store. simpl.
  destruct (Z.ltb_spec c cs); [|lia]. simpl.
  int32_simpl.
  destruct (Z.leb_spec 0 (r * cs + c)); [|nia].
  destruct inc, ml; simpl; int32_simpl; zcases; int32_simpl; simpl;
    repeat split; try reflexivity; try lia;
    apply rem_is_mod; lia.
Qed.

Lemma cursor_index_in_buffer st :
  lcd_ok st -> buffer_sized st -> (cursor_index st < length (buffer st))%nat.
Proof.
  intros Hok Hlen. unfold buffer_sized in Hlen. rewrite Hlen.
  unfold cursor_index. destruct st as [rs cs r c rg rp buf a don inc off ml].
  unfold_ok. apply Z2Nat.inj_lt; nia.
Qed.

(** A data byte is stored in the cell under the cursor and in no other
    cell: reading the buffer back there gives the low 8 bits of the
    byte, every other cell keeps its content, and one frame is printed. *)
Theorem data_write_stores_byte st b :
  lcd_ok st -> buffer_sized st ->
  let st' := fst (issue_data st b) in
  buffer st' !! cursor_index st = Some (C.uint8 b) /\
  (forall j, j <> cursor_index st -> buffer st' !! j = buffer st !! j) /\
  length (buffer st') = length (buffer st) /\
  snd (issue_data st b) = [lcd_print st'].
Proof.
  intros Hok Hlen. cbv zeta.
  pose proof (cursor_index_in_buffer st Hok Hlen) as Hidx.
  destruct (issue_data_spec st b Hok) as (Hbuf & _ & _ & _ & _ & _ & _ & _ & _ & _ & Hout).
  rewrite Hbuf. repeat split.
  - now apply list_lookup_insert_eq.
  - intros j Hj. now apply list_lookup_insert_ne.
  - apply length_insert.
  - exact Hout.
Qed.

Lemma data_write_stores_byte_witness :
  let st' := fst (issue_data lcd_16x2 65) in
  buffer st' !! cursor_index lcd_16x2 = Some (C.uint8 65) /\
  (forall j, j <> cursor_index lcd_16x2 ->
             buffer st' !! j = buffer lcd_16x2 !! j) /\
  length (buffer st') = length (buffer lcd_16x2) /\
  snd (issue_data lcd_16x2 65) = [lcd_print st'].
Proof.
  apply (data_write_stores_byte lcd_16x2 65);
    [unfold_ok; lia | reflexivity].
Defined.

(** Away from the edge a data write moves the cursor by one column in
    the entry-mode direction, right in increment mode and left in
    decrement mode, and stays on its row. *)
Theorem data_write_moves_cursor st b :
  lcd_ok st ->
  (if increment_mode st then current_col st + 1 < cols st
   else 0 < current_col st) ->
  let st' := fst (issue_data st b) in
  current_row st' = current_row st /\
  current_col st' =
    (if increment_mode st then current_col st + 1 else current_col st - 1).
Proof.
  intros Hok Hedge. cbv zeta.
  destruct (issue_data_spec st b Hok)
    as (_ & _ & _ & _ & _ & _ & _ & _ & Hcol & Hrow & _).
  rewrite Hcol, Hrow. clear Hcol Hrow.
  destruct (increment_mode st).
  - destruct (Z.ltb_spec (current_col st + 1) (cols st)); [|lia].
    split; reflexivity.
  - destruct (Z.ltb_spec 0 (current_col st)); [|lia].
    split; reflexivity.
Qed.

Lemma data_write_moves_cursor_witness :
  let st' := fst (issue_data lcd_16x2 65) in
  current_row st' = current_row lcd_16x2 /\
  current_col st' =
    (if increment_mode lcd_16x2 then current_col lcd_16x2 + 1
     else current_col lcd_16x2 - 1).
Proof.
  apply (data_write_moves_cursor lcd_16x2 65); [unfold_ok; lia | simpl; lia].
Defined.

(** In decrement mode with the cursor at column 0, a data write moves
    the cursor to the last column; the row is unchanged in single-line
    mode and becomes [(row - 1 + rows) mod rows] in multi-line mode. *)
Theorem data_write_wraps_at_first_column st b :
  lcd_ok st ->
  increment_mode st = false ->
  current_col st = 0 ->
  let st' := fst (issue_data st b) in
  current_col st' = cols st - 1 /\
  current_row st' =
    (if multi_line_mode st then (current_row st - 1 + rows st) mod rows st
     else current_row st).
Proof.
  intros Hok Hdec Hcol0. cbv zeta.
  destruct (issue_data_spec st b Hok)
    as (_ & _ & _ & _ & _ & _ & _ & _ & Hcol & Hrow & _).
  rewrite Hcol, Hrow, Hdec, Hcol0. simpl.
  destruct (multi_line_mode st); split; reflexivity.
Qed.

Lemma data_write_wraps_at_first_column_witness :
  let st := set_multi_line_mode true (set_increment_mode false lcd_16x2) in
  let st' := fst (issue_data st 65) in
  current_col st' = cols st - 1 /\
  current_row st' =
    (if multi_line_mode st then (current_row st - 1 + rows st) mod rows st
     else current_row st).
Proof.
  apply (data_write_wraps_at_first_column
           (set_multi_line_mode true (set_increment_mode false lcd_16x2)) 65);
    [unfold_ok; lia | reflexivity | reflexivity].
Defined.

(** *** A run of characters *)

Lemma issue_data_ok st b : lcd_ok st -> lcd_ok (fst (issue_data st b)).
Proof. intros Hok. unfold issue_data. now apply run_ok. Qed.

Lemma issue_data_sized st b :
  buffer_sized st -> buffer_sized (fst (issue_data st b)).
Proof.
  unfold issue_data, buffer_sized. intros Hlen.
  destruct (run_shape st (pulse st true false b)) as (Hr & Hc & _ & Hl).
  now rewrite Hr, Hc, Hl.
Qed.

Lemma issue_bytes_spec bs : forall st,
  lcd_ok st -> buffer_sized st ->
  increment_mode st = true ->
  current_col st + Z.of_nat (length bs) < cols st ->
  let st' := issue_bytes st bs in
  current_row st' = current_row st /\
  current_col st' = current_col st + Z.of_nat (length bs) /\
  (forall i b, bs !! i = Some b ->
     buffer st' !! (cursor_index st + i)%nat = Some (C.uint8 b)) /\
  (forall j, (j < cursor_index st)%nat \/
             (cursor_index st + length bs <= j)%nat ->
     buffer st' !! j = buffer st !! j).
Proof.
  induction bs as [|b bs IH]; intros st Hok Hlen Hinc Hfit; cbv zeta.
  - simpl. repeat split; try lia. intros i b Hi. discriminate.
  - simpl length in *. change (issue_bytes st (b :: bs))
      with (issue_bytes (fst (issue_data st b)) bs).
    pose proof (issue_data_spec st b Hok)
      as (Hbuf & Hrs & Hcs & _ & _ & Hinc1 & _ & _ & Hcol & Hrow & _).
    cbv zeta in *. rewrite Hinc in *.
    destruct (Z.ltb_spec (current_col st + 1) (cols st)); [|lia].
    simpl in Hcol, Hrow.
    set (st1 := fst (issue_data st b)) in *.
    assert (Hidx1 : cursor_index st1 = S (cursor_index st)).
    { unfold cursor_index. rewrite Hrow, Hcol, Hcs.
      destruct Hok as [_ (Hr & Hc & _)].
      rewrite <- Z2Nat.inj_succ by nia. f_equal. lia. }
    specialize (IH st1 (issue_data_ok st b Hok) (issue_data_sized st b Hlen)
                  Hinc1 ltac:(lia)).
    cbv zeta in IH. destruct IH as (IHr & IHc & IHw & IHo).
    repeat split.
    + congruence.
    + lia.
    + intros [|i] b' Hi.
      * simpl in Hi. injection Hi as <-. rewrite Nat.add_0_r.
        rewrite IHo by lia. rewrite Hbuf.
        apply list_lookup_insert_eq.
        now apply cursor_index_in_buffer.
      * simpl in Hi. replace (cursor_index st + S i)%nat
          with (cursor_index st1 + i)%nat by lia.
        now apply IHw.
    + intros j Hj. rewrite IHo by lia. rewrite Hbuf.
      apply list_lookup_insert_ne. lia.
Qed.

(** Characters written one after the other in increment mode, as long
    as they fit before the end of the row, land in consecutive cells
    starting at the cursor, leave every other cell as it was, and leave
    the cursor just behind the last one, on the same row. *)
Theorem issue_bytes_fills_row st bs :
  lcd_ok st -> buffer_sized st ->
  increment_mode st = true ->
  current_col st + Z.of_nat (length bs) < cols st ->
  let st' := issue_bytes st bs in
  current_row st' = current_row st /\
  current_col st' = current_col st + Z.of_nat (length bs) /\
  (forall i b, bs !! i = Some b ->
     buffer st' !! (cursor_index st + i)%nat = Some (C.uint8 b)) /\
  (forall j, (j < cursor_index st)%nat \/
             (cursor_index st + length bs <= j)%nat ->
     buffer st' !! j = buffer st !! j).
Proof. intros. now apply issue_bytes_spec. Qed.

Lemma issue_bytes_fills_row_witness :
  let st' := issue_bytes lcd_16x2 [72; 105; 33] in
  current_row st' = current_row lcd_16x2 /\
  current_col st' = current_col lcd_16x2 + Z.of_nat (length [72; 105; 33]) /\
  (forall i b, [72; 105; 33] !! i = Some b ->
     buffer st' !! (cursor_index lcd_16x2 + i)%nat = Some (C.uint8 b)) /\
  (forall j, (j < cursor_index lcd_16x2)%nat \/
             (cursor_index lcd_16x2 + length [72; 105; 33] <= j)%nat ->
     buffer st' !! j = buffer lcd_16x2 !! j).
Proof.
  apply (issue_bytes_fills_row lcd_16x2 [72; 105; 33]);
    [unfold_ok; lia | reflexivity | reflexivity | simpl; lia].
Defined.

(** ** Instructions through the register interface *)

Lemma latched_command_byte st cmd :
  0 <= cmd < 256 -> reg_data (reg (latched st false false cmd)) = cmd.
Proof. intros Hc. destruct st. simpl. now apply uint8_byte. Qed.

(** An instruction pulse runs the handler [decode] selects. *)
Lemma issue_command_decode st cmd :
  0 <= cmd < 256 ->
  issue_command st cmd =
  let l := latched st false false cmd in
  let '(st', updated) :=
    match decode cmd with
    | IClear => (lcd_handle_clear_command l, true)
    | IHome => (lcd_handle_home_command l, false)
    | IEntryMode => (lcd_handle_entry_mode_command l cmd, false)
    | IDisplayControl => (lcd_handle_display_control_command l cmd, true)
    | IFunctionSet => (lcd_handle_function_set_command l cmd, true)
    | IShift => (lcd_handle_shift_command l cmd, true)
    | ISetCursor => (lcd_handle_set_cursor_command l cmd, false)
    | IIgnored => (l, false)
    end in
  (st', if updated then [lcd_print st'] else []).
Proof.
  intros Hc. rewrite issue_command_eq.
  rewrite lcd_handle_command_write_decode by reflexivity. cbv zeta.
  rewrite latched_command_byte by exact Hc. reflexivity.
Qed.

(** Facts about single bytes, checked on all 256 of them. *)
Ltac by_byte_cases P cmd Hc :=
  let H := fresh "Hbyte" in
  pose proof (byte_cases P) as H;
  specialize (H ltac:(vm_compute; reflexivity) cmd Hc); simpl in H.

Lemma decode_entry_mode cmd :
  0x04 <= cmd <= 0x07 ->
  decode cmd = IEntryMode /\ negb (Z.land cmd 0x02 =? 0) = Z.testbit cmd 1.
Proof.
  intros Hr. assert (Hc : 0 <= cmd < 256) by lia.
  by_byte_cases
    (fun c => negb ((0x04 <=? c) && (c <=? 0x07))
              || (instruction_eqb (decode c) IEntryMode
                  && Bool.eqb (negb (Z.land c 0x02 =? 0)) (Z.testbit c 1)))
    cmd Hc.
  apply orb_true_iff in Hbyte as [H|H].
  - apply negb_true_iff, andb_false_iff in H as [H|H];
      apply Z.leb_gt in H; lia.
  - apply andb_true_iff in H as [H1 H2].
    split; [now apply instruction_eqb_eq|now apply Bool.eqb_prop].
Qed.

Lemma decode_display_control cmd :
  0x08 <= cmd <= 0x0F ->
  decode cmd = IDisplayControl /\
  negb (Z.land cmd 0x04 =? 0) = Z.testbit cmd 2.
Proof.
  intros Hr. assert (Hc : 0 <= cmd < 256) by lia.
  by_byte_cases
    (fun c => negb ((0x08 <=? c) && (c <=? 0x0F))
              || (instruction_eqb (decode c) IDisplayControl
                  && Bool.eqb (negb (Z.land c 0x04 =? 0)) (Z.testbit c 2)))
    cmd Hc.
  apply orb_true_iff in Hbyte as [H|H].
  - apply negb_true_iff, andb_false_iff in H as [H|H];
      apply Z.leb_gt in H; lia.
  - apply andb_true_iff in H as [H1 H2].
    split; [now apply instruction_eqb_eq|now apply Bool.eqb_prop].
Qed.

Lemma decode_function_set cmd :
  0x20 <= cmd <= 0x3F ->
  decode cmd = IFunctionSet /\
  negb (Z.land cmd 0x08 =? 0) = Z.testbit cmd 3.
Proof.
  intros Hr. assert (Hc : 0 <= cmd < 256) by lia.
  by_byte_cases
    (fun c => negb ((0x20 <=? c) && (c <=? 0x3F))
              || (instruction_eqb (decode c) IFunctionSet
                  && Bool.eqb (negb (Z.land c 0x08 =? 0)) (Z.testbit c 3)))
    cmd Hc.
  apply orb_true_iff in Hbyte as [H|H].
  - apply negb_true_iff, andb_false_iff in H as [H|H];
      apply Z.leb_gt in H; lia.
  - apply andb_true_iff in H as [H1 H2].
    split; [now apply instruction_eqb_eq|now apply Bool.eqb_prop].
Qed.

Lemma decode_shift cmd : 0x10 <= cmd <= 0x13 -> decode cmd = IShift.
Proof.
  intros Hr. assert (Hc : 0 <= cmd < 256) by lia.
  by_byte_cases
    (fun c => negb ((0x10 <=? c) && (c <=? 0x13))
              || instruction_eqb (decode c) IShift)
    cmd Hc.
  apply orb_true_iff in Hbyte as [H|H].
  - apply negb_true_iff, andb_false_iff in H as [H|H];
      apply Z.leb_gt in H; lia.
  - now apply instruction_eqb_eq.
Qed.

Lemma decode_ignored cmd :
  cmd = 0x00 \/ cmd = 0x03 \/ 0x14 <= cmd <= 0x1F \/ 0x40 <= cmd <= 0x7F ->
  decode cmd = IIgnored.
Proof.
  intros Hr. assert (Hc : 0 <= cmd < 256) by lia.
  by_byte_cases
    (fun c => negb ((c =? 0x00) || (c =? 0x03)
                    || ((0x14 <=? c) && (c <=? 0x1F))
                    || ((0x40 <=? c) && (c <=? 0x7F)))
              || instruction_eqb (decode c) IIgnored)
    cmd Hc.
  apply orb_true_iff in Hbyte as [H|H].
  - apply negb_true_iff in H.
    repeat (apply orb_false_iff in H as [H ?]).
    repeat match goal with
    | H : (_ =? _) = false |- _ => apply Z.eqb_neq in H
    | H : (_ && _) = false |- _ => apply andb_false_iff in H as [H|H]
    | H : (_ <=? _) = false |- _ => apply Z.leb_gt in H
    end; lia.
  - now apply instruction_eqb_eq.
Qed.

(** Entry mode set, bytes [0x04 .. 0x07]: the entry-mode direction
    becomes bit 1 of the byte; the display mode, the line mode, the
    cursor, the buffer and the shift offset are as before, and nothing
    is printed. *)
Theorem entry_mode_set st cmd :
  0x04 <= cmd <= 0x07 ->
  let '(st', out) := issue_command st cmd in
  increment_mode st' = Z.testbit cmd 1 /\
  display_on st' = display_on st /\
  multi_line_mode st' = multi_line_mode st /\
  same_but_modes st st' /\ out = [].
Proof.
  intros Hr. rewrite issue_command_decode by lia. cbv zeta.
  destruct (decode_entry_mode cmd Hr) as [-> Hbit].
  unfold lcd_handle_entry_mode_command. rewrite Hbit.
  destruct st; repeat split.
Qed.

Lemma entry_mode_set_witness :
  let '(st', out) := issue_command lcd_16x2 0x04 in
  increment_mode st' = Z.testbit 0x04 1 /\
  display_on st' = display_on lcd_16x2 /\
  multi_line_mode st' = multi_line_mode lcd_16x2 /\
  same_but_modes lcd_16x2 st' /\ out = [].
Proof. apply (entry_mode_set lcd_16x2 0x04). lia. Defined.

(** Display control, bytes [0x08 .. 0x0F]: the display is on exactly
    when bit 2 of the byte is set; the other two modes, the cursor, the
    buffer and the shift offset are as before, and one frame is
    printed. *)
Theorem display_control_set st cmd :
  0x08 <= cmd <= 0x0F ->
  let '(st', out) := issue_command st cmd in
  display_on st' = Z.testbit cmd 2 /\
  increment_mode st' = increment_mode st /\
  multi_line_mode st' = multi_line_mode st /\
  same_but_modes st st' /\ out = [lcd_print st'].
Proof.
  intros Hr. rewrite issue_command_decode by lia. cbv zeta.
  destruct (decode_display_control cmd Hr) as [-> Hbit].
  unfold lcd_handle_display_control_command. rewrite Hbit.
  destruct st; repeat split.
Qed.

Lemma display_control_set_witness :
  let '(st', out) := issue_command lcd_16x2 0x0C in
  display_on st' = Z.testbit 0x0C 2 /\
  increment_mode st' = increment_mode lcd_16x2 /\
  multi_line_mode st' = multi_line_mode lcd_16x2 /\
  same_but_modes lcd_16x2 st' /\ out = [lcd_print st'].
Proof. apply (display_control_set lcd_16x2 0x0C). lia. Defined.

(** Function set, bytes [0x20 .. 0x3F]: multi-line mode is on exactly
    when bit 3 of the byte is set; the cursor (its row too, also when the
    mode goes back to a single line), the buffer, the shift offset and
    the other two modes are as before, and one frame is printed. *)
Theorem function_set st cmd :
  0x20 <= cmd <= 0x3F ->
  let '(st', out) := issue_command st cmd in
  multi_line_mode st' = Z.testbit cmd 3 /\
  display_on st' = display_on st /\
  increment_mode st' = increment_mode st /\
  same_but_modes st st' /\ out = [lcd_print st'].
Proof.
  intros Hr. rewrite issue_command_decode by lia. cbv zeta.
  destruct (decode_function_set cmd Hr) as [-> Hbit].
  unfold lcd_handle_function_set_command. rewrite Hbit.
  destruct st; repeat split.
Qed.

Lemma function_set_witness :
  let '(st', out) := issue_command lcd_16x2 0x38 in
  multi_line_mode st' = Z.testbit 0x38 3 /\
  display_on st' = display_on lcd_16x2 /\
  increment_mode st' = increment_mode lcd_16x2 /\
  same_but_modes lcd_16x2 st' /\ out = [lcd_print st'].
Proof. apply (function_set lcd_16x2 0x38). lia. Defined.

(** The bytes the decoder admits to the shift handler, [0x10 .. 0x13],
    all move the cursor one column to the left; from column 0 the
    cursor goes to the last column of the row above, wrapping from row
    0 to the last row, in single-line mode as well.  The buffer, the
    modes and the shift offset are as before and one frame is printed. *)
Theorem shift_moves_cursor_left st cmd :
  lcd_ok st -> 0x10 <= cmd <= 0x13 ->
  let '(st', out) := issue_command st cmd in
  same_but_cursor st st' /\
  current_col st' =
    (if 0 <? current_col st then current_col st - 1 else cols st - 1) /\
  current_row st' =
    (if 0 <? current_col st then current_row st
     else (current_row st - 1 + rows st) mod rows st) /\
  out = [lcd_print st'].
Proof.
  intros Hok Hr. rewrite issue_command_decode by lia. cbv zeta.
  pose proof (decode_shift cmd Hr) as Hd. rewrite Hd.
  apply decode_shift_cursor_only in Hd as [H8 H4].
  unfold lcd_handle_shift_command. rewrite H8, H4. simpl negb. cbv iota.
  destruct st as [rs cs r c rg rp buf a don inc off ml].
  unfold_ok. unfold latched. simpl. int32_simpl.
  zcases; int32_simpl; repeat split; try reflexivity; try lia.
  apply rem_is_mod; lia.
Qed.

Lemma shift_moves_cursor_left_witness :
  let '(st', out) := issue_command lcd_16x2 0x10 in
  same_but_cursor lcd_16x2 st' /\
  current_col st' =
    (if 0 <? current_col lcd_16x2 then current_col lcd_16x2 - 1
     else cols lcd_16x2 - 1) /\
  current_row st' =
    (if 0 <? current_col lcd_16x2 then current_row lcd_16x2
     else (current_row lcd_16x2 - 1 + rows lcd_16x2) mod rows lcd_16x2) /\
  out = [lcd_print st'].
Proof.
  apply (shift_moves_cursor_left lcd_16x2 0x10); [unfold_ok; lia | lia].
Defined.

(** The bytes [0x00], [0x03], [0x14 .. 0x1F] (cursor right and both
    display shifts) and [0x40 .. 0x7F] (set CGRAM address) match no test
    of the decoder: issued as instructions they change nothing but the
    register snapshots and print nothing. *)
Theorem ignored_instructions st cmd :
  cmd = 0x00 \/ cmd = 0x03 \/ 0x14 <= cmd <= 0x1F \/ 0x40 <= cmd <= 0x7F ->
  let '(st', out) := issue_command st cmd in
  controller_unchanged st st' /\ out = [].
Proof.
  intros Hr. rewrite issue_command_decode by lia. cbv zeta.
  rewrite (decode_ignored cmd Hr).
  split; [apply latched_unchanged|reflexivity].
Qed.

Lemma ignored_instructions_witness :
  let '(st', out) := issue_command lcd_16x2 0x40 in
  controller_unchanged lcd_16x2 st' /\ out = [].
Proof. apply (ignored_instructions lcd_16x2 0x40). lia. Defined.

(** ** What changes the buffer *)

Lemma decode_clear_only cmd : decode cmd = IClear -> cmd = LCD_CMD_CLEAR.
Proof.
  unfold decode. destruct (Z.eqb_spec cmd LCD_CMD_CLEAR); [auto|].
  split_ifs; discriminate.
Qed.

(** No instruction but Clear touches the character buffer: after any
    other instruction byte the buffer is what it was. *)
Theorem instructions_keep_buffer st cmd :
  0 <= cmd < 256 -> cmd <> LCD_CMD_CLEAR ->
  buffer (fst (issue_command st cmd)) = buffer st.
Proof.
  intros Hc Hne. rewrite issue_command_decode by exact Hc. cbv zeta.
  destruct (decode cmd) eqn:Hd; simpl fst.
  - apply decode_clear_only in Hd. contradiction.
  - destruct st; reflexivity.
  - destruct st; reflexivity.
  - destruct st; reflexivity.
  - destruct st; reflexivity.
  - unfold lcd_handle_shift_command.
    destruct st; simpl. split_ifs; simpl; split_ifs; simpl; split_ifs;
      reflexivity.
  - unfold lcd_handle_set_cursor_command, lcd_set_cursor.
    destruct (ddram_addr_to_position _ _) as [[r c]|];
      destruct st; simpl; split_ifs; reflexivity.
  - destruct st; reflexivity.
Qed.

Lemma instructions_keep_buffer_witness :
  buffer (fst (issue_command (fst (issue_data lcd_16x2 65)) 0x02)) =
  buffer (fst (issue_data lcd_16x2 65)).
Proof.
  apply (instructions_keep_buffer (fst (issue_data lcd_16x2 65)) 0x02);
    [lia | discriminate].
Defined.

(** ** What no write changes *)

(** Whatever is written to the device, in any order and at any address,
    the geometry, the base address and the size of the buffer stay what
    they were. *)
Theorem writes_keep_geometry st ws :
  let st' := fst (run st ws) in
  rows st' = rows st /\ cols st' = cols st /\ addr st' = addr st /\
  length (buffer st') = length (buffer st).
Proof. exact (run_shape st ws). Qed.

(** ** The enable pulse *)

(** While enable is high the data register can be rewritten freely: the
    byte executed at the falling edge is the last one latched, and the
    session is indistinguishable, in state and in output, from one that
    latched only that byte. *)
Theorem last_latched_byte_executes st rs rw b1 b2 :
  run st [ (C.uint64 (addr st + REGISTER_DATA), b1);
           (C.uint64 (addr st + REGISTER_CONTROL), control_word rs rw true);
           (C.uint64 (addr st + REGISTER_DATA), b2);
           (C.uint64 (addr st + REGISTER_CONTROL), control_word rs rw false) ]
  = run st (pulse st rs rw b2).
Proof.
  rewrite run_pulse.
  destruct (control_word_bits rs rw true) as (T0 & T1 & T2).
  destruct (control_word_bits rs rw false) as (F0 & F1 & F2).
  destruct st as [rs0 cs r c rg rp buf a don inc off ml].
  unfold run.
  rewrite lcd_write32_data
    by (simpl; apply register_offset; unfold REGISTER_DATA; lia).
  rewrite lcd_write32_control
    by (simpl; apply register_offset; unfold REGISTER_CONTROL; lia).
  rewrite T0, T1, T2.
  unfold lcd_execute_command at 1. simpl.
  rewrite andb_false_r.
  rewrite lcd_write32_data
    by (simpl; apply register_offset; unfold REGISTER_DATA; lia).
  rewrite lcd_write32_control
    by (simpl; apply register_offset; unfold REGISTER_CONTROL; lia).
  rewrite F0, F1, F2. simpl.
  unfold latched, set_reg, set_reg_prev. simpl.
  destruct (lcd_execute_command _) as [s o].
  now rewrite app_nil_r.
Qed.

(** ** Rendering *)

Lemma upto_length n : length (upto n) = Z.to_nat n.
Proof. unfold upto. now rewrite length_map, length_seq. Qed.

Lemma map_lookup {A B} (f : A -> B) (l : list A) i :
  map f l !! i = f <$> (l !! i).
Proof.
  revert i. induction l as [|x l IH]; intros [|i]; simpl; auto.
Qed.

Lemma upto_lookup n i :
  (i < Z.to_nat n)%nat -> upto n !! i = Some (Z.of_nat i).
Proof.
  intros Hi. unfold upto. rewrite map_lookup.
  rewrite lookup_seq_lt by exact Hi. reflexivity.
Qed.

Lemma Forall_map_const {A B} (P : B -> Prop) (y : B) (l : list A) :
  P y -> Forall P (map (fun _ => y) l).
Proof. intros Hy. induction l; simpl; constructor; auto. Qed.

(** The grid of cells between the borders has one line per row of the
    display and one cell per column. *)
Lemma lcd_print_dimensions st :
  1 <= rows st ->
  length (lcd_print st) = Z.to_nat (rows st) /\
  Forall (fun line => length line = Z.to_nat (cols st)) (lcd_print st).
Proof.
  intros Hr. unfold lcd_print.
  assert (Hblank : length (map (fun _ : Z => 32) (upto (cols st)))
                   = Z.to_nat (cols st))
    by now rewrite length_map, upto_length.
  destruct (display_on st); simpl.
  - split.
    + rewrite length_app, !length_map. unfold from_upto.
      rewrite length_map, !upto_length.
      destruct (multi_line_mode st); lia.
    + apply Forall_app. split.
      * apply List.Forall_map, Forall_forall. intros r _.
        now rewrite length_map, upto_length.
      * now apply Forall_map_const.
  - split.
    + now rewrite length_map, upto_length.
    + now apply Forall_map_const.
Qed.

Lemma lcd_print_dimensions_witness :
  length (lcd_print (fst (run lcd_16x2 sample_writes)))
  = Z.to_nat (rows (fst (run lcd_16x2 sample_writes))) /\
  Forall (fun line =>
            length line = Z.to_nat (cols (fst (run lcd_16x2 sample_writes))))
         (lcd_print (fst (run lcd_16x2 sample_writes))).
Proof.
  apply (lcd_print_dimensions (fst (run lcd_16x2 sample_writes))).
  vm_compute. discriminate.
Defined.

(** With the display off every printed cell is a space, whatever the
    buffer holds; with the display on, every line below the active ones
    (all the rows in multi-line mode, the first row alone in single-line
    mode) is spaces. *)
Theorem lcd_print_blank st :
  let active :=
    if display_on st
    then if multi_line_mode st then Z.to_nat (rows st) else 1%nat
    else 0%nat in
  Forall (Forall (eq 32)) (drop active (lcd_print st)).
Proof.
  assert (Hblank : Forall (eq 32) (map (fun _ : Z => 32) (upto (cols st))))
    by (apply Forall_map_const; reflexivity).
  cbv zeta. unfold lcd_print.
  destruct (display_on st); simpl negb; cbv iota.
  - match goal with
    | |- Forall _ (drop ?n (?l1 ++ ?l2)) =>
        replace n with (length l1); [rewrite drop_app_length|]
    end.
    + now apply Forall_map_const.
    + rewrite length_map, upto_length.
      destruct (multi_line_mode st); reflexivity.
  - rewrite drop_0. now apply Forall_map_const.
Qed.

(** The line and the cell of a frame printed with the display on. *)
Lemma lcd_print_lookup st r c :
  display_on st = true ->
  0 <= r < (if multi_line_mode st then rows st else 1) ->
  0 <= c < cols st ->
  exists line,
    lcd_print st !! Z.to_nat r = Some line /\
    line !! Z.to_nat c = Some (lcd_print_cell st r c).
Proof.
  intros Hon Hr Hc. unfold lcd_print. rewrite Hon. simpl.
  exists (map (lcd_print_cell st r) (upto (cols st))). split.
  - rewrite lookup_app_l
      by (rewrite length_map, upto_length; lia).
    rewrite map_lookup, upto_lookup by lia. simpl.
    now rewrite Z2Nat.id by lia.
  - rewrite map_lookup, upto_lookup by lia. simpl.
    now rewrite Z2Nat.id by lia.
Qed.

(** A character written with the display on and on a visible row shows
    in the frame the write prints, at the row and column the cursor had:
    the byte itself, or a space for the byte 0. *)
Theorem data_write_shows_in_frame st b :
  lcd_ok st -> buffer_sized st ->
  display_on st = true ->
  display_shift_offset st = 0 ->
  multi_line_mode st = true \/ current_row st = 0 ->
  exists frame line,
    snd (issue_data st b) = [frame] /\
    frame !! Z.to_nat (current_row st) = Some line /\
    line !! Z.to_nat (current_col st)
    = Some (if C.uint8 b =? 0 then 32 else C.uint8 b).
Proof.
  intros Hok Hlen Hon Hoff Hvis.
  pose proof (cursor_index_in_buffer st Hok Hlen) as Hidx.
  destruct (issue_data_spec st b Hok)
    as (Hbuf & Hrs & Hcs & _ & Hon' & _ & Hoff' & Hml' & _ & _ & Hout).
  set (st' := fst (issue_data st b)) in *.
  destruct Hok as [[Hgr Hgc] (Hr & Hc & _)].
  unfold LCD_MAX_ROWS, LCD_MAX_COLS in *.
  destruct (lcd_print_lookup st' (current_row st) (current_col st))
    as (line & Hline & Hcell).
  - congruence.
  - rewrite Hml', Hrs. destruct Hvis as [-> | Hz]; [lia|].
    destruct (multi_line_mode st); lia.
  - rewrite Hcs. lia.
  - exists (lcd_print st'), line. repeat split; [exact Hout|exact Hline|].
    rewrite Hcell. f_equal. unfold lcd_print_cell.
    rewrite Hoff', Hoff, Hcs, Hbuf, Z.add_0_r.
    int32_simpl.
    destruct (Z.geb_spec (current_col st) 0); [|lia].
    destruct (Z.ltb_spec (current_col st) (cols st)); [|lia]. simpl.
    unfold buf_load.
    destruct (Z.leb_spec 0 (current_row st * cols st + current_col st));
      [|nia].
    fold (cursor_index st).
    rewrite list_lookup_insert_eq by exact Hidx. reflexivity.
Qed.

Lemma data_write_shows_in_frame_witness :
  exists frame line,
    snd (issue_data (fst (run lcd_16x2 sample_writes)) 66) = [frame] /\
    frame !! Z.to_nat (current_row (fst (run lcd_16x2 sample_writes)))
    = Some line /\
    line !! Z.to_nat (current_col (fst (run lcd_16x2 sample_writes)))
    = Some (if C.uint8 66 =? 0 then 32 else C.uint8 66).
Proof.
  apply (data_write_shows_in_frame (fst (run lcd_16x2 sample_writes)) 66).
  - vm_compute. repeat split; discriminate.
  - reflexivity.
  - reflexivity.
  - reflexivity.
  - left. reflexivity.
Defined.

(** ** The shift handler on its own *)

(** [lcd_handle_shift_command] called directly, on any byte: with bit 3
    set it leaves the cursor and moves the shift offset by one, right
    for bit 2 set and left otherwise, staying within [[-cols, cols]];
    with bit 3 clear it leaves the offset and moves the cursor by one
    column, right for bit 2 set and left otherwise, wrapping to the
    next or the previous row at the edge. *)
Theorem lcd_handle_shift_command_spec st cmd :
  lcd_ok st ->
  let st' := lcd_handle_shift_command st cmd in
  let display := negb (Z.land cmd 0x08 =? 0) in
  let right := negb (Z.land cmd 0x04 =? 0) in
  buffer st' = buffer st /\
  (if display then
     current_row st' = current_row st /\ current_col st' = current_col st /\
     display_shift_offset st' =
       Z.max (- cols st)
         (Z.min (cols st)
            (display_shift_offset st + (if right then 1 else -1)))
   else
     display_shift_offset st' = display_shift_offset st /\
     if right then
       if current_col st + 1 <? cols st
       then current_row st' = current_row st /\
            current_col st' = current_col st + 1
       else current_row st' = (current_row st + 1) mod rows st /\
            current_col st' = 0
     else
       if 0 <? current_col st
       then current_row st' = current_row st /\
            current_col st' = current_col st - 1
       else current_row st' = (current_row st - 1 + rows st) mod rows st /\
            current_col st' = cols st - 1).
Proof.
  intros Hok. cbv zeta. unfold lcd_handle_shift_command.
  destruct st as [rs cs r c rg rp buf a don inc off ml].
  unfold_ok.
  destruct (negb (Z.land cmd 8 =? 0)), (negb (Z.land cmd 4 =? 0));
    simpl; int32_simpl; zcases; int32_simpl; zcases;
    repeat split; try reflexivity; try lia;
    apply rem_is_mod; lia.
Qed.

Lemma lcd_handle_shift_command_spec_witness :
  let st := set_display_shift_offset 16 lcd_16x2 in
  let st' := lcd_handle_shift_command st 0x1C in
  let display := negb (Z.land 0x1C 0x08 =? 0) in
  let right := negb (Z.land 0x1C 0x04 =? 0) in
  buffer st' = buffer st /\
  (if display then
     current_row st' = current_row st /\ current_col st' = current_col st /\
     display_shift_offset st' =
       Z.max (- cols st)
         (Z.min (cols st)
            (display_shift_offset st + (if right then 1 else -1)))
   else
     display_shift_offset st' = display_shift_offset st /\
     if right then
       if current_col st + 1 <? cols st
       then current_row st' = current_row st /\
            current_col st' = current_col st + 1
       else current_row st' = (current_row st + 1) mod rows st /\
            current_col st' = 0
     else
       if 0 <? current_col st
       then current_row st' = current_row st /\
            current_col st' = current_col st - 1
       else current_row st' = (current_row st - 1 + rows st) mod rows st /\
            current_col st' = cols st - 1).
Proof.
  apply (lcd_handle_shift_command_spec
           (set_display_shift_offset 16 lcd_16x2) 0x1C).
  unfold_ok. lia.
Defined.

(** ** Construction errors *)

(** Which error [dlcd_init] reports: the checks run in the order
    columns, rows, base address, end of the register block, and the
    first one that fails decides. *)
Theorem dlcd_init_error_order phys_range pc pr pa r0 r1 :
  let res := dlcd_init phys_range pc pr pa r0 r1 in
  (res = inl ColsExceedMaximum <-> C.uint32 pc > 40) /\
  (res = inl RowsExceedMaximum <->
     C.uint32 pc <= 40 /\ C.uint32 pr > 4) /\
  (res = inl DataRegisterOutOfRange <->
     C.uint32 pc <= 40 /\ C.uint32 pr <= 4 /\
     phys_range (C.uint64 pa) = false) /\
  (res = inl RegistersExceedRange <->
     C.uint32 pc <= 40 /\ C.uint32 pr <= 4 /\
     phys_range (C.uint64 pa) = true /\
     phys_range (C.uint64 (C.uint64 pa + 4)) = false).
Proof.
  cbv zeta. unfold dlcd_init. change REGISTER_LIMIT with 4.
  destruct (Z.gtb_spec (C.uint32 pc) LCD_MAX_COLS) as [Hc|Hc];
    destruct (Z.gtb_spec (C.uint32 pr) LCD_MAX_ROWS) as [Hr|Hr];
    destruct (phys_range (C.uint64 pa));
    destruct (phys_range (C.uint64 (C.uint64 pa + 4)));
    unfold LCD_MAX_COLS, LCD_MAX_ROWS in *; simpl;
    intuition (try discriminate; try lia; try reflexivity).
Qed.

(** ** Introspection *)

(** The two addresses [dlcd_info] prints are the ones the write handler
    answers to: a write at the first only latches the data byte, a
    write at the second is a control write. *)
Theorem dlcd_info_addresses st :
  exists d c,
    dlcd_info st = ([d; c], true) /\
    C.uint64 (d - addr st) = REGISTER_DATA /\
    C.uint64 (c - addr st) = REGISTER_CONTROL /\
    (forall v,
       lcd_write32 st d v =
       (set_reg (mk_reg (reg_rs (reg st)) (reg_rw (reg st)) (reg_e (reg st))
                   (C.uint8 v)) st, [])) /\
    (forall v,
       lcd_write32 st c v =
       lcd_execute_command
         (set_reg (mk_reg (reg_rs (reg_of_value v)) (reg_rw (reg_of_value v))
                     (reg_e (reg_of_value v)) (reg_data (reg st)))
            (set_reg_prev (reg st) st))).
Proof.
  exists (addr st), (C.uint64 (addr st + 1)).
  assert (H0 : C.uint64 (addr st - addr st) = REGISTER_DATA)
    by (rewrite Z.sub_diag; reflexivity).
  assert (H1 : C.uint64 (C.uint64 (addr st + 1) - addr st) = REGISTER_CONTROL)
    by (apply register_offset; unfold REGISTER_CONTROL; lia).
  repeat split; try assumption.
  - intros v. now apply lcd_write32_data.
  - intros v. now apply lcd_write32_control.
Qed.

(** ** The printed text *)

Lemma concat_const_length {A} (g : list Z) (l : list A) :
  length (concat (map (fun _ => g) l)) = (length l * length g)%nat.
Proof.
  induction l as [|x l IH]; simpl; [reflexivity|].
  rewrite length_app, IH. lia.
Qed.

Lemma lcd_print_border_length left right cols :
  length (lcd_print_border left right cols)
  = (length left + 3 * Z.to_nat cols + length right + 1)%nat.
Proof.
  unfold lcd_print_border.
  rewrite !length_app, concat_const_length, upto_length. simpl. lia.
Qed.

Lemma framed_lines_length (lines : list (list Z)) n :
  Forall (fun line => length line = n) lines ->
  length (concat (map (fun line => glyph_vertical ++ line
                                   ++ glyph_vertical ++ [10]) lines))
  = (length lines * (n + 7))%nat.
Proof.
  induction 1 as [|line lines Hline _ IH]; [reflexivity|].
  cbn [concat map length]. rewrite !length_app, IH, Hline. simpl. lia.
Qed.

Lemma count_newline_none (l : list Z) :
  Forall (fun b => b <> 10) l -> count_occ Z.eq_dec l 10 = 0%nat.
Proof.
  induction 1 as [|b l Hb _ IH]; simpl; [reflexivity|].
  destruct (Z.eq_dec b 10); [contradiction|exact IH].
Qed.

Lemma lcd_print_border_newlines left right cols :
  Forall (fun b => b <> 10) left -> Forall (fun b => b <> 10) right ->
  count_occ Z.eq_dec (lcd_print_border left right cols) 10 = 1%nat.
Proof.
  intros Hl Hr. unfold lcd_print_border.
  rewrite !count_occ_app, (count_newline_none left Hl),
    (count_newline_none right Hr).
  rewrite count_newline_none; [reflexivity|].
  induction (upto cols) as [|x l IH]; simpl; [constructor|].
  repeat (constructor; [discriminate|]). exact IH.
Qed.

Lemma framed_lines_newlines (lines : list (list Z)) :
  Forall (Forall (fun b => b <> 10)) lines ->
  count_occ Z.eq_dec
    (concat (map (fun line => glyph_vertical ++ line
                              ++ glyph_vertical ++ [10]) lines)) 10
  = length lines.
Proof.
  induction 1 as [|line lines Hline _ IH]; [reflexivity|].
  cbn [concat map length].
  rewrite !count_occ_app, IH, (count_newline_none line Hline). reflexivity.
Qed.

Lemma lcd_print_cell_no_newline st r c :
  Forall (fun b => b <> 10) (buffer st) -> lcd_print_cell st r c <> 10.
Proof.
  intros Hbuf. unfold lcd_print_cell, buf_load.
  destruct (_ && _); [|discriminate].
  destruct (0 <=? _); [|discriminate].
  destruct (buffer st !! _) as [x|] eqn:Hx; simpl; [|discriminate].
  destruct (Z.eqb_spec x 0); [discriminate|].
  exact (Forall_lookup_1 _ _ _ _ Hbuf Hx).
Qed.

Lemma lcd_print_no_newline st :
  Forall (fun b => b <> 10) (buffer st) ->
  Forall (Forall (fun b => b <> 10)) (lcd_print st).
Proof.
  intros Hbuf.
  assert (Hblank : Forall (fun b => b <> 10)
                     (map (fun _ : Z => 32) (upto (cols st))))
    by (apply Forall_map_const; discriminate).
  unfold lcd_print. destruct (display_on st); simpl.
  - apply Forall_app. split.
    + apply List.Forall_map, Forall_forall. intros r _.
      apply List.Forall_map, Forall_forall. intros c _.
      now apply lcd_print_cell_no_newline.
    + now apply Forall_map_const.
  - now apply Forall_map_const.
Qed.

(** The text [lcd_print] writes, borders included, has a size fixed by
    the geometry: two border lines of [cols] three-byte glyphs between
    two corners, and [rows] lines of [cols] one-byte cells between two
    vertical glyphs, each line ended by a newline, whatever the modes,
    the buffer and the shift offset.  When no cell of the buffer holds
    the newline byte the text is [rows + 2] lines. *)
Theorem lcd_print_output_size st :
  1 <= rows st ->
  let r := Z.to_nat (rows st) in
  let c := Z.to_nat (cols st) in
  length (lcd_print_output st) = (2 * (3 * c + 7) + r * (c + 7))%nat /\
  (Forall (fun b => b <> 10) (buffer st) ->
   count_occ Z.eq_dec (lcd_print_output st) 10 = (r + 2)%nat).
Proof.
  intros Hr. cbv zeta.
  destruct (lcd_print_dimensions st Hr) as [Hlines Hwidth].
  unfold lcd_print_output. split.
  - rewrite !length_app, !lcd_print_border_length.
    rewrite (framed_lines_length _ _ Hwidth), Hlines. simpl. lia.
  - intros Hbuf. rewrite !count_occ_app.
    rewrite !lcd_print_border_newlines
      by (repeat (constructor; [discriminate|]); constructor).
    rewrite framed_lines_newlines by now apply lcd_print_no_newline.
    rewrite Hlines. lia.
Qed.

Lemma lcd_print_output_size_witness :
  let st := fst (run lcd_16x2 sample_writes) in
  let r := Z.to_nat (rows st) in
  let c := Z.to_nat (cols st) in
  length (lcd_print_output st) = (2 * (3 * c + 7) + r * (c + 7))%nat /\
  (Forall (fun b => b <> 10) (buffer st) ->
   count_occ Z.eq_dec (lcd_print_output st) 10 = (r + 2)%nat).
Proof.
  apply (lcd_print_output_size (fst (run lcd_16x2 sample_writes))).
  vm_compute. discriminate.
Defined.
